(** * EXIF tag decoding and the streaming loader of package [exif]

    A shallow embedding of the Go binding [exif.go]: the tag types, the
    per-entry decoder inside [parseExifData], the tag map, and the
    [Write]/[Parse] protocol of the streaming loader.  Two revisions of the
    file are embedded: the one with byte, short, long and rational decoding
    (top level), and the earlier one that only decodes shorts and longs
    (module [ExifGo]). *)

From Stdlib Require Import ZArith List String Ascii Lia QArith.
From Stdlib.Strings Require Import Byte.
From Stdlib Require Import Floats.SpecFloat.
From stdpp Require Import gmap strings.
Import ListNotations.

Local Open Scope string_scope.
Local Open Scope Z_scope.

(** ** Machine integers *)

(** Signed [w]-bit two's complement value of an integer. *)
Definition wrap (w : Z) (z : Z) : Z := (z + 2 ^ (w - 1)) mod 2 ^ w - 2 ^ (w - 1).

(** Go's [int] on the 64-bit targets the package is built for; cgo's [C.int]
    and [C.uint]. *)
Definition int (z : Z) : Z := wrap 64 z.
Definition C_int (z : Z) : Z := wrap 32 z.
Definition C_uint (z : Z) : Z := z mod 2 ^ 32.

Definition int_add (a b : Z) : Z := int (a + b).
Definition int_mul (a b : Z) : Z := int (a * b).

(** ** libexif primitives *)

Inductive ExifByteOrder := EXIF_BYTE_ORDER_MOTOROLA | EXIF_BYTE_ORDER_INTEL.

(** A C buffer is the list of the bytes behind the pointer; [buf_at] is
    [buf[i]] as an unsigned char.  Bytes past the end of the list read as
    zero. *)
Definition buf_at (buf : list byte) (i : nat) : Z :=
  Z.of_N (Byte.to_N (nth i buf x00)).

(** Modelled from the spec: [exif_get_short] of libexif, which is not part
    of the sources: "read 2 bytes from payload honoring byte_order; integer
    value = that 16-bit unsigned quantity". *)
Definition exif_get_short (buf : list byte) (order : ExifByteOrder) : Z :=
  match order with
  | EXIF_BYTE_ORDER_MOTOROLA =>
      Z.land (Z.lor (Z.shiftl (buf_at buf 0) 8) (buf_at buf 1)) 65535
  | EXIF_BYTE_ORDER_INTEL =>
      Z.land (Z.lor (Z.shiftl (buf_at buf 1) 8) (buf_at buf 0)) 65535
  end.

(** Modelled from the spec: [exif_get_long] of libexif: "read 4 bytes from
    payload honoring byte_order; integer value = that 32-bit quantity". *)
Definition exif_get_long (buf : list byte) (order : ExifByteOrder) : Z :=
  match order with
  | EXIF_BYTE_ORDER_MOTOROLA =>
      Z.land (Z.lor (Z.lor (Z.lor (Z.shiftl (buf_at buf 0) 24)
                                  (Z.shiftl (buf_at buf 1) 16))
                           (Z.shiftl (buf_at buf 2) 8))
                    (buf_at buf 3)) 4294967295
  | EXIF_BYTE_ORDER_INTEL =>
      Z.land (Z.lor (Z.lor (Z.lor (Z.shiftl (buf_at buf 3) 24)
                                  (Z.shiftl (buf_at buf 2) 16))
                           (Z.shiftl (buf_at buf 1) 8))
                    (buf_at buf 0)) 4294967295
  end.

Record ExifRational := { r_numerator : Z; r_denominator : Z }.

(** Modelled from the spec: [exif_get_rational] of libexif: "read one
    (numerator, denominator) pair honoring byte_order"; the pair is two
    consecutive longs. *)
Definition exif_get_rational (buf : list byte) (order : ExifByteOrder) : ExifRational :=
  {| r_numerator := exif_get_long buf order;
     r_denominator := exif_get_long (skipn 4 buf) order |}.

(** Modelled from the spec: [exif_get_rational_offset], a C helper of the
    binding that is not part of the sources: "for each subsequent component
    i read (numerator_i, denominator_i)"; component [i] starts [8 * i] bytes
    into the payload. *)
Definition exif_get_rational_offset (buf : list byte) (order : ExifByteOrder)
    (offset : Z) : ExifRational :=
  exif_get_rational (skipn (Z.to_nat (8 * offset)) buf) order.

(** ** Raw entries *)

(** The fields of libexif's [ExifEntry] that the binding reads.
    [parent_order] stands for
    [exif_data_get_byte_order(entry->parent->parent)]. *)
Record ExifEntry := {
  entry_tag : Z;
  entry_format : Z;
  entry_components : Z;
  entry_data : list byte;
  parent_order : ExifByteOrder
}.

(** Modelled from the spec: [exif_value_t] of [_cgo/types.h], which is not
    part of the sources: a raw entry together with its label and its
    preformatted value. *)
Record exif_value_t := {
  ev_name : string;
  ev_value : string;
  rawValue : ExifEntry
}.

(** Modelled from the spec: the stack built by [exif_dump] is the "flat,
    ordered sequence of raw directory entries", here in the order in which
    [pop_exif_value] hands them out. *)
Definition exif_stack_t := list exif_value_t.

Definition pop_exif_value (values : exif_stack_t) : option exif_value_t * exif_stack_t :=
  match values with
  | [] => (None, [])
  | v :: rest => (Some v, rest)
  end.

(** ** Strings *)

Definition space : ascii := Ascii.ascii_of_nat 32.

(** [strings.Trim] with a one-byte ASCII cutset is
    [trimLeftByte(trimRightByte(s, c), c)]. *)
Fixpoint trimLeftByte (s : string) (c : ascii) : string :=
  match s with
  | EmptyString => EmptyString
  | String a s' => if Ascii.eqb a c then trimLeftByte s' c else s
  end.

Fixpoint trimRightByte (s : string) (c : ascii) : string :=
  match s with
  | EmptyString => EmptyString
  | String a s' =>
      match trimRightByte s' c with
      | EmptyString => if Ascii.eqb a c then EmptyString else String a EmptyString
      | r => String a r
      end
  end.

Fixpoint in_cutset (a : ascii) (cutset : string) : bool :=
  match cutset with
  | EmptyString => false
  | String c cs => Ascii.eqb a c || in_cutset a cs
  end.

Fixpoint trimLeftSet (s cutset : string) : string :=
  match s with
  | EmptyString => EmptyString
  | String a s' => if in_cutset a cutset then trimLeftSet s' cutset else s
  end.

Fixpoint trimRightSet (s cutset : string) : string :=
  match s with
  | EmptyString => EmptyString
  | String a s' =>
      match trimRightSet s' cutset with
      | EmptyString => if in_cutset a cutset then EmptyString else String a EmptyString
      | r => String a r
      end
  end.

(** [strings.Trim(s, cutset)] for ASCII cutsets. *)
Definition Trim (s cutset : string) : string :=
  match s, cutset with
  | EmptyString, _ => s
  | _, EmptyString => s
  | _, String c EmptyString => trimLeftByte (trimRightByte s c) c
  | _, _ => trimLeftSet (trimRightSet s cutset) cutset
  end.

(** ** Tags *)

Definition TagOrientation := 274.
Definition exifFormatByte := 1.
Definition exifFormatString := 2.
Definition exifFormatShort := 3.
Definition exifFormatLong := 4.
Definition exifFormatFloat := 5.

Record basicTag := { tag : Z; label : string; value : string }.
Record integerTag := { integer_basicTag : basicTag; intValue : Z }.
Record floatTag := { float_basicTag : basicTag; numerator : Z; denominator : Z }.

(** A value of interface type [Tag] is a pointer to one of the three
    structs. *)
Inductive Tag :=
| BasicTag (b : basicTag)
| IntegerTag (t : integerTag)
| FloatTag (t : floatTag).

Inductive variant := VBasic | VInteger | VFloat.

Definition variant_of (t : Tag) : variant :=
  match t with
  | BasicTag _ => VBasic
  | IntegerTag _ => VInteger
  | FloatTag _ => VFloat
  end.

(** The embedded [basicTag] that the promoted methods act on. *)
Definition basic_of (t : Tag) : basicTag :=
  match t with
  | BasicTag b => b
  | IntegerTag t => integer_basicTag t
  | FloatTag t => float_basicTag t
  end.

Definition with_basic (f : basicTag -> basicTag) (t : Tag) : Tag :=
  match t with
  | BasicTag b => BasicTag (f b)
  | IntegerTag t => IntegerTag {| integer_basicTag := f (integer_basicTag t); intValue := intValue t |}
  | FloatTag t => FloatTag {| float_basicTag := f (float_basicTag t);
                              numerator := numerator t; denominator := denominator t |}
  end.

Definition Tag_id (t : Tag) : Z := tag (basic_of t).
Definition TextLabel (t : Tag) : string := label (basic_of t).
Definition TextValue (t : Tag) : string := value (basic_of t).

Definition setTag (val : Z) : Tag -> Tag :=
  with_basic (fun b => {| tag := val; label := label b; value := value b |}).
Definition setTextLabel (val : string) : Tag -> Tag :=
  with_basic (fun b => {| tag := tag b; label := val; value := value b |}).
Definition setTextValue (val : string) : Tag -> Tag :=
  with_basic (fun b => {| tag := tag b; label := label b; value := val |}).

Definition IntValue (t : integerTag) : Z := intValue t.
Definition Numerator (t : floatTag) : Z := numerator t.
Definition Denominator (t : floatTag) : Z := denominator t.

(** The zero values [&basicTag{}], [&integerTag{}], [&floatTag{}]. *)
Definition basicTag_zero : basicTag := {| tag := 0; label := EmptyString; value := EmptyString |}.
Definition integerTag_zero : integerTag := {| integer_basicTag := basicTag_zero; intValue := 0 |}.
Definition floatTag_zero : floatTag :=
  {| float_basicTag := basicTag_zero; numerator := 0; denominator := 0 |}.

(** ** Floating point *)

(** Go's [float64] is IEEE 754 binary64: 53 bits of precision, infinities at
    exponent 1024; conversions and division round to nearest even. *)
Definition float64 := spec_float.
Definition prec : Z := 53.
Definition emax : Z := 1024.

Definition float64_of_int (z : Z) : float64 := binary_normalize prec emax z 0 false.

Definition FloatValue (t : floatTag) : float64 :=
  SFdiv prec emax (float64_of_int (numerator t)) (float64_of_int (denominator t)).

(** The rational number a finite [float64] stands for, in lowest terms. *)
Definition float64_to_Q (f : float64) : option Q :=
  match f with
  | S754_zero _ => Some 0%Q
  | S754_finite s m e =>
      let v := match e with
               | Zneg p => Qmake (Zpos m) (2 ^ p)%positive
               | _ => inject_Z (Zpos m * 2 ^ e)
               end in
      Some (Qred (if s then Qopp v else v))
  | _ => None
  end.

(** ** The decoder of one raw entry *)

(** The loop [for i := 1; i < numComponents; i++] over the remaining
    components of a rational entry; [steps] counts the iterations left. *)
Fixpoint fold_components (data : list byte) (byteOrder : ExifByteOrder)
    (i : Z) (steps : nat) (intTag : floatTag) : floatTag :=
  match steps with
  | O => intTag
  | S steps' =>
      let rational := exif_get_rational_offset data byteOrder (C_int i) in
      let numerator' :=
        int_add (int_mul (int_mul 60 (numerator intTag)) (int (r_denominator rational)))
                (int_mul (int (r_numerator rational)) (denominator intTag)) in
      let denominator' :=
        int_mul (int_mul (denominator intTag) (int (r_denominator rational))) 60 in
      fold_components data byteOrder (i + 1) steps'
        {| float_basicTag := float_basicTag intTag;
           numerator := numerator'; denominator := denominator' |}
  end.

(** The body of the [else] branch of the walk up to the three setters: the
    tag built for one popped value under the byte order in force. *)
Definition newTag (byteOrder : ExifByteOrder) (raw : ExifEntry) : Tag :=
  let tagFmt := C_int (entry_format raw) in
  if tagFmt =? exifFormatByte then
    IntegerTag {| integer_basicTag := basicTag_zero;
                  intValue := int (buf_at (entry_data raw) 0) |}
  else if tagFmt =? exifFormatShort then
    IntegerTag {| integer_basicTag := basicTag_zero;
                  intValue := int (exif_get_short (entry_data raw) byteOrder) |}
  else if tagFmt =? exifFormatLong then
    IntegerTag {| integer_basicTag := basicTag_zero;
                  intValue := int (exif_get_long (entry_data raw) byteOrder) |}
  else if tagFmt =? exifFormatFloat then
    let rational := exif_get_rational (entry_data raw) byteOrder in
    let intTag := {| float_basicTag := basicTag_zero;
                     numerator := int (r_numerator rational);
                     denominator := int (r_denominator rational) |} in
    let numComponents := int (entry_components raw) in
    FloatTag (if 1 <? numComponents
              then fold_components (entry_data raw) byteOrder 1
                     (Z.to_nat (numComponents - 1)) intTag
              else intTag)
  else BasicTag basicTag_zero.

Definition decodeValue (byteOrder : ExifByteOrder) (v : exif_value_t) : Tag :=
  let tagId := int (C_int (entry_tag (rawValue v))) in
  let thisTag := newTag byteOrder (rawValue v) in
  let thisTag := setTag tagId thisTag in
  let thisTag := setTextLabel (Trim (ev_name v) " ") thisTag in
  setTextValue (Trim (ev_value v) " ") thisTag.

(** [d.Tags[thisTag.Tag()] = thisTag] *)
Definition store_tag (Tags : gmap Z Tag) (thisTag : Tag) : gmap Z Tag :=
  <[Tag_id thisTag := thisTag]> Tags.

(** The [for] loop of [parseExifData]: pops values until the stack is empty;
    the byte order is read from the first popped value only. *)
Fixpoint parseExifData_loop (values : exif_stack_t) (byteOrder : ExifByteOrder)
    (haveByteOrder : bool) (Tags : gmap Z Tag) : gmap Z Tag :=
  match values with
  | [] => Tags
  | v :: rest =>
      let byteOrder :=
        if haveByteOrder then byteOrder else parent_order (rawValue v) in
      parseExifData_loop rest byteOrder true (store_tag Tags (decodeValue byteOrder v))
  end.

(** The byte order in force during a walk: the one of its first value. *)
Definition walk_order (values : exif_stack_t) : ExifByteOrder :=
  match values with
  | [] => EXIF_BYTE_ORDER_MOTOROLA
  | first :: _ => parent_order (rawValue first)
  end.

(** ** Errors *)

(** Go compares error values by identity: the two package-level values made
    by [errors.New] are sentinels, a value made by [fmt.Errorf] is a new
    one. *)
Inductive error :=
| ErrNoExifData
| ErrFoundExifInData
| fmt_error (msg : string).

Definition Error (e : error) : string :=
  match e with
  | ErrNoExifData => "No EXIF data found."
  | ErrFoundExifInData => "Found EXIF header. OK to call Parse."
  | fmt_error msg => msg
  end.

(** [fmt.Errorf(format, a...)] for a format without verbs and string
    operands: the format is copied, and operands that no verb consumed are
    reported as [%!(EXTRA string=..., string=...)]. *)
Definition Errorf (format : string) (a : list string) : error :=
  fmt_error
    match a with
    | [] => format
    | x :: xs =>
        String.append format
          (String.append "%!(EXTRA string="
             (String.append x
                (fold_right (fun y acc => String.append ", string=" (String.append y acc))
                            ")" xs)))
    end.

(** What a Go call does: it returns, it panics, or the runtime throws a
    fatal error that no [recover] catches. *)
Inductive outcome (A : Type) :=
| Returned (a : A)
| Panicked (msg : string)
| Thrown (msg : string).
Arguments Returned {A} a.
Arguments Panicked {A} msg.
Arguments Thrown {A} msg.

(** ** The binding *)

(** The part of libexif and of the binding's C glue that the Go code calls
    and that the sources do not contain. *)
Class LibExif := {
  ExifData : Type;
  ExifLoader : Type;
  exif_data_new_from_file : string -> option ExifData;
  exif_dump : ExifData -> exif_stack_t;
  exif_loader_new : ExifLoader;
  exif_loader_write : ExifLoader -> list byte -> ExifLoader * Z;
  exif_loader_get_data : ExifLoader -> option ExifData
}.

Section Binding.
Context `{LibExif}.

(** [finalizer] is not a field of the Go struct: it records that
    [runtime.SetFinalizer] has registered [cleanup] for this object.  Nothing
    in the package removes the registration again. *)
Record Data := {
  exifLoader : option ExifLoader;
  finalizer : bool;
  Tags : gmap Z Tag
}.

Definition New : Data := {| exifLoader := None; finalizer := false; Tags := ∅ |}.

Definition parseExifData (d : Data) (exifData : ExifData) : option error * Data :=
  let values := exif_dump exifData in
  (None, {| exifLoader := exifLoader d;
            finalizer := finalizer d;
            Tags := parseExifData_loop values EXIF_BYTE_ORDER_MOTOROLA false (Tags d) |}).

Definition Open (d : Data) (file : string) : option error * Data :=
  match exif_data_new_from_file file with
  | None => (Some ErrNoExifData, d)
  | Some exifData => parseExifData d exifData
  end.

Definition Read (file : string) : option Data * option error :=
  let data := New in
  match Open data file with
  | (Some err, _) => (None, Some err)
  | (None, data') => (Some data', None)
  end.

Definition cleanup (d : Data) : Data :=
  match exifLoader d with
  | Some _ => {| exifLoader := None; finalizer := finalizer d; Tags := Tags d |}
  | None => d
  end.

Definition len (p : list byte) : Z := Z.of_nat (length p).

(** [Write] can go on when the loader exists, or when it can create one and
    register the finalizer: [runtime.SetFinalizer] throws when the object
    already has a finalizer. *)
Definition writable (d : Data) : bool :=
  match exifLoader d with
  | Some _ => true
  | None => negb (finalizer d)
  end.

(** The part of [Write] after the loader exists: [&p[0]] panics on an empty
    slice; libexif is handed the pointer and [C.uint(len(p))] bytes. *)
Definition write_chunk (d : Data) (loader : ExifLoader) (p : list byte)
  : outcome (Z * option error) * Data :=
  match p with
  | [] => (Panicked "runtime error: index out of range [0] with length 0",
           {| exifLoader := Some loader; finalizer := finalizer d; Tags := Tags d |})
  | _ :: _ =>
      let '(loader', res) :=
        exif_loader_write loader (firstn (Z.to_nat (C_uint (len p))) p) in
      let d' := {| exifLoader := Some loader'; finalizer := finalizer d; Tags := Tags d |} in
      if res =? 1 then (Returned (len p, None), d')
      else (Returned (len p, Some ErrFoundExifInData), d')
  end.

(** [Write]: when the loader is nil a new one is stored and the finalizer
    is registered, which is fatal if one is registered already. *)
Definition Write (d : Data) (p : list byte) : outcome (Z * option error) * Data :=
  match exifLoader d with
  | None =>
      let d1 := {| exifLoader := Some exif_loader_new;
                   finalizer := true; Tags := Tags d |} in
      if finalizer d
      then (Thrown "runtime.SetFinalizer: finalizer already set", d1)
      else write_chunk d1 exif_loader_new p
  | Some loader => write_chunk d loader p
  end.

(** [Parse]: [exif_loader_get_data] answers NULL for a NULL loader; the
    deferred [cleanup] runs on both exits. *)
Definition Parse (d : Data) : option error * Data :=
  let exifData := match exifLoader d with
                  | None => None
                  | Some l => exif_loader_get_data l
                  end in
  match exifData with
  | None => (Some (Errorf (Error ErrNoExifData) [EmptyString]), cleanup d)
  | Some exifData =>
      let '(err, d') := parseExifData d exifData in
      (err, cleanup d')
  end.

End Binding.

(** ** The earlier revision, [exif.go] *)

(** This revision decodes shorts and longs only and asks libexif for the
    byte order of every entry it decodes.  Its tag types, [New], [Read],
    [Open], [Write], [Parse] and [cleanup] are those above. *)
Module ExifGo.

Definition newTag (raw : ExifEntry) : Tag :=
  let tagFmt := C_int (entry_format raw) in
  if tagFmt =? exifFormatShort then
    IntegerTag {| integer_basicTag := basicTag_zero;
                  intValue := int (exif_get_short (entry_data raw) (parent_order raw)) |}
  else if tagFmt =? exifFormatLong then
    IntegerTag {| integer_basicTag := basicTag_zero;
                  intValue := int (exif_get_long (entry_data raw) (parent_order raw)) |}
  else BasicTag basicTag_zero.

Definition decodeValue (v : exif_value_t) : Tag :=
  let tagId := int (C_int (entry_tag (rawValue v))) in
  let thisTag := newTag (rawValue v) in
  let thisTag := setTag tagId thisTag in
  let thisTag := setTextLabel (Trim (ev_name v) " ") thisTag in
  setTextValue (Trim (ev_value v) " ") thisTag.

Fixpoint parseExifData_loop (values : exif_stack_t) (Tags : gmap Z Tag) : gmap Z Tag :=
  match values with
  | [] => Tags
  | v :: rest => parseExifData_loop rest (store_tag Tags (decodeValue v))
  end.

End ExifGo.

(** ** Sample data *)

(** A stand-in for libexif, to run the binding on concrete inputs: a file
    system with two images, and a loader that keeps the bytes it is given
    and asks for more until it holds [II*] or [MM*] followed by one more
    byte. *)
Module Sample.

Definition short_entry (id : Z) (order : ExifByteOrder) (b0 b1 : byte) : exif_value_t :=
  {| ev_name := " Orientation "; ev_value := " Top-left ";
     rawValue := {| entry_tag := id; entry_format := exifFormatShort;
                    entry_components := 1; entry_data := [b0; b1];
                    parent_order := order |} |}.

Definition rational_entry (id : Z) (order : ExifByteOrder) (n : Z) (payload : list byte)
  : exif_value_t :=
  {| ev_name := "Latitude"; ev_value := "10, 30, 0";
     rawValue := {| entry_tag := id; entry_format := exifFormatFloat;
                    entry_components := n; entry_data := payload;
                    parent_order := order |} |}.

(** A big-endian rational component. *)
Definition be_rational (n d : byte) : list byte := [x00; x00; x00; n; x00; x00; x00; d].

(** Degrees, minutes and seconds as three big-endian rationals over 1. *)
Definition dms (a b c : byte) : exif_value_t :=
  rational_entry 2 EXIF_BYTE_ORDER_MOTOROLA 3
    (be_rational a x01 ++ be_rational b x01 ++ be_rational c x01).

Definition orientation_walk : exif_stack_t :=
  [short_entry TagOrientation EXIF_BYTE_ORDER_MOTOROLA x00 x01].

Definition gps_walk : exif_stack_t := [dms x0a x1e x00].

(** Two entries whose parents report different byte orders.  A walk dumped
    from one ExifData is never like this; the list only tells the two
    revisions of the decoder apart. *)
Definition mixed_walk : exif_stack_t :=
  [short_entry 1 EXIF_BYTE_ORDER_MOTOROLA x00 x01;
   short_entry 2 EXIF_BYTE_ORDER_INTEL x00 x01].

Definition has_header (buf : list byte) : bool :=
  match buf with
  | x49 :: x49 :: x2a :: _ :: _ => true
  | x4d :: x4d :: x2a :: _ :: _ => true
  | _ => false
  end.

#[global] Instance lib : LibExif := {|
  ExifData := exif_stack_t;
  ExifLoader := list byte;
  exif_data_new_from_file := fun file =>
    if String.eqb file "orientation.jpg" then Some orientation_walk
    else if String.eqb file "gps.jpg" then Some gps_walk
    else None;
  exif_dump := fun values => values;
  exif_loader_new := [];
  exif_loader_write := fun loader buf =>
    ((loader ++ buf)%list, if has_header (loader ++ buf)%list then 0 else 1);
  exif_loader_get_data := fun loader =>
    if has_header loader then Some orientation_walk else None
|}.

End Sample.

(** ** The specification's wording *)

(** These definitions follow the specification, not the code; the theorems
    below compare the decoder with them. *)
Module Spec.

Inductive FormatCode := Byte | Short | Long | Rational | Other.

Definition format_code (f : Z) : FormatCode :=
  if f =? 1 then Byte
  else if f =? 3 then Short
  else if f =? 4 then Long
  else if f =? 5 then Rational
  else Other.

(** "Byte, Short and Long yield an IntegerTag, Rational yields a FloatTag,
    every other format yields a BasicTag". *)
Definition variant_for (c : FormatCode) : variant :=
  match c with
  | Byte | Short | Long => VInteger
  | Rational => VFloat
  | Other => VBasic
  end.

(** The standard interpretation of two and of four bytes under a byte
    order. *)
Definition short_value (order : ExifByteOrder) (b0 b1 : Z) : Z :=
  match order with
  | EXIF_BYTE_ORDER_MOTOROLA => 256 * b0 + b1
  | EXIF_BYTE_ORDER_INTEL => 256 * b1 + b0
  end.

Definition long_value (order : ExifByteOrder) (b0 b1 b2 b3 : Z) : Z :=
  match order with
  | EXIF_BYTE_ORDER_MOTOROLA => 16777216 * b0 + 65536 * b1 + 256 * b2 + b3
  | EXIF_BYTE_ORDER_INTEL => 16777216 * b3 + 65536 * b2 + 256 * b1 + b0
  end.

(** The integer a Byte, Short or Long payload stands for. *)
Definition payload_value (c : FormatCode) (order : ExifByteOrder) (data : list byte) : Z :=
  match c with
  | Byte => buf_at data 0
  | Short => short_value order (buf_at data 0) (buf_at data 1)
  | Long => long_value order (buf_at data 0) (buf_at data 1) (buf_at data 2) (buf_at data 3)
  | _ => 0
  end.

(** "numerator = 60 * numerator * denominator_i + numerator_i * denominator;
    denominator = denominator * denominator_i * 60", in Go's [int]. *)
Definition fold_step (acc : Z * Z) (r : ExifRational) : Z * Z :=
  (int (60 * fst acc * r_denominator r + r_numerator r * snd acc),
   int (snd acc * r_denominator r * 60)).

(** Components [1 .. n-1] of a rational payload, in payload order. *)
Definition later_components (data : list byte) (order : ExifByteOrder) (n : Z)
  : list ExifRational :=
  map (fun i => exif_get_rational_offset data order (Z.of_nat i))
      (seq 1 (Z.to_nat (n - 1))).

Definition first_component (data : list byte) (order : ExifByteOrder) : Z * Z :=
  (r_numerator (exif_get_rational data order),
   r_denominator (exif_get_rational data order)).

(** The first and the last byte of a string, if it has one. *)
Definition first_byte (s : string) : option ascii :=
  match s with
  | EmptyString => None
  | String a _ => Some a
  end.

Fixpoint last_byte (s : string) : option ascii :=
  match s with
  | EmptyString => None
  | String a s' =>
      match s' with
      | EmptyString => Some a
      | String _ _ => last_byte s'
      end
  end.

(** The tag ids of a walk, as the decoder computes them. *)
Definition walk_ids (values : exif_stack_t) : list Z :=
  map (fun v => int (C_int (entry_tag (rawValue v)))) values.

(** The numbers a tag carries besides its id. *)
Definition numeric_payload (t : Tag) : list Z :=
  match t with
  | BasicTag _ => []
  | IntegerTag t => [intValue t]
  | FloatTag t => [numerator t; denominator t]
  end.

(** [n] copies of one byte. *)
Fixpoint repeat_byte (n : nat) (c : ascii) : string :=
  match n with
  | O => EmptyString
  | S n' => String c (repeat_byte n' c)
  end.

End Spec.

(** * Machine integers and byte reads *)

Section MachineIntegers.

Lemma int_small (z : Z) : -2 ^ 63 <= z < 2 ^ 63 -> int z = z.
Proof.
  intros Hz. unfold int, wrap.
  change (64 - 1) with 63.
  rewrite Z.mod_small; lia.
Qed.

Lemma int_mod (a : Z) : int a mod 2 ^ 64 = a mod 2 ^ 64.
Proof.
  unfold int, wrap. change (64 - 1) with 63.
  rewrite Zminus_mod_idemp_l. f_equal. ring.
Qed.

Lemma int_eqm (a : Z) : eqm (2 ^ 64) (int a) a.
Proof. exact (int_mod a). Qed.

Lemma eqm_int (a b : Z) : eqm (2 ^ 64) a b -> int a = int b.
Proof.
  unfold eqm. intros Hab. unfold int, wrap.
  rewrite (Z.add_mod a), (Z.add_mod b), Hab by lia. reflexivity.
Qed.

Lemma buf_at_range (buf : list byte) (i : nat) : 0 <= buf_at buf i < 256.
Proof.
  unfold buf_at. pose proof (Byte.to_N_bounded (nth i buf x00)). lia.
Qed.

(** Or-ing a value below [2^k] into a multiple of [2^k] adds it. *)
Lemma lor_low_bits (k c lo : Z) :
  0 <= k -> 0 <= lo < 2 ^ k -> Z.lor (c * 2 ^ k) lo = c * 2 ^ k + lo.
Proof.
  intros Hk Hlo.
  assert (Hdisj : Z.land (c * 2 ^ k) lo = 0).
  { apply Z.bits_inj'. intros n Hn.
    rewrite Z.land_spec, Z.bits_0, <- Z.shiftl_mul_pow2 by lia.
    destruct (Z.ltb_spec n k) as [Hlt | Hge].
    - rewrite Z.shiftl_spec_low by lia. reflexivity.
    - rewrite <- (Z.mod_small lo (2 ^ k)) by lia.
      rewrite Z.mod_pow2_bits_high by lia. apply andb_false_r. }
  rewrite <- Z.lxor_lor by exact Hdisj.
  symmetry. apply Z.add_nocarry_lxor. exact Hdisj.
Qed.

Lemma exif_get_short_value (buf : list byte) (order : ExifByteOrder) :
  exif_get_short buf order = Spec.short_value order (buf_at buf 0) (buf_at buf 1).
Proof.
  pose proof (buf_at_range buf 0). pose proof (buf_at_range buf 1).
  destruct order; unfold exif_get_short, Spec.short_value;
    rewrite Z.shiftl_mul_pow2 by lia;
    rewrite (lor_low_bits 8) by lia;
    change 65535 with (Z.ones 16);
    rewrite Z.land_ones by lia;
    rewrite Z.mod_small; lia.
Qed.

Lemma exif_get_long_value (buf : list byte) (order : ExifByteOrder) :
  exif_get_long buf order =
  Spec.long_value order (buf_at buf 0) (buf_at buf 1) (buf_at buf 2) (buf_at buf 3).
Proof.
  pose proof (buf_at_range buf 0). pose proof (buf_at_range buf 1).
  pose proof (buf_at_range buf 2). pose proof (buf_at_range buf 3).
  destruct order; unfold exif_get_long, Spec.long_value;
    rewrite !Z.shiftl_mul_pow2 by lia.
  - rewrite (lor_low_bits 24) by lia.
    replace (buf_at buf 0 * 2 ^ 24 + buf_at buf 1 * 2 ^ 16)
      with ((buf_at buf 0 * 2 ^ 8 + buf_at buf 1) * 2 ^ 16) by ring.
    rewrite (lor_low_bits 16) by lia.
    replace ((buf_at buf 0 * 2 ^ 8 + buf_at buf 1) * 2 ^ 16 + buf_at buf 2 * 2 ^ 8)
      with (((buf_at buf 0 * 2 ^ 8 + buf_at buf 1) * 2 ^ 8 + buf_at buf 2) * 2 ^ 8) by ring.
    rewrite (lor_low_bits 8) by lia.
    change 4294967295 with (Z.ones 32).
    rewrite Z.land_ones by lia. rewrite Z.mod_small; lia.
  - rewrite (lor_low_bits 24) by lia.
    replace (buf_at buf 3 * 2 ^ 24 + buf_at buf 2 * 2 ^ 16)
      with ((buf_at buf 3 * 2 ^ 8 + buf_at buf 2) * 2 ^ 16) by ring.
    rewrite (lor_low_bits 16) by lia.
    replace ((buf_at buf 3 * 2 ^ 8 + buf_at buf 2) * 2 ^ 16 + buf_at buf 1 * 2 ^ 8)
      with (((buf_at buf 3 * 2 ^ 8 + buf_at buf 2) * 2 ^ 8 + buf_at buf 1) * 2 ^ 8) by ring.
    rewrite (lor_low_bits 8) by lia.
    change 4294967295 with (Z.ones 32).
    rewrite Z.land_ones by lia. rewrite Z.mod_small; lia.
Qed.

Lemma exif_get_short_range (buf : list byte) (order : ExifByteOrder) :
  0 <= exif_get_short buf order < 65536.
Proof.
  rewrite exif_get_short_value.
  pose proof (buf_at_range buf 0). pose proof (buf_at_range buf 1).
  destruct order; unfold Spec.short_value; lia.
Qed.

Lemma exif_get_long_range (buf : list byte) (order : ExifByteOrder) :
  0 <= exif_get_long buf order < 4294967296.
Proof.
  rewrite exif_get_long_value.
  pose proof (buf_at_range buf 0). pose proof (buf_at_range buf 1).
  pose proof (buf_at_range buf 2). pose proof (buf_at_range buf 3).
  destruct order; unfold Spec.long_value; lia.
Qed.

Lemma int_exif_get_long (buf : list byte) (order : ExifByteOrder) :
  int (exif_get_long buf order) = exif_get_long buf order.
Proof. pose proof (exif_get_long_range buf order). apply int_small. lia. Qed.

Lemma int_exif_get_short (buf : list byte) (order : ExifByteOrder) :
  int (exif_get_short buf order) = exif_get_short buf order.
Proof. pose proof (exif_get_short_range buf order). apply int_small. lia. Qed.

End MachineIntegers.

(** * Trimming *)

Section Trimming.
Variable c : ascii.

Lemma trimLeftByte_first (s : string) : Spec.first_byte (trimLeftByte s c) <> Some c.
Proof.
  induction s as [| a s IH]; simpl; [discriminate |].
  destruct (Ascii.eqb_spec a c) as [-> | Hne]; [exact IH |].
  simpl. congruence.
Qed.

Lemma trimRightByte_last (s : string) : Spec.last_byte (trimRightByte s c) <> Some c.
Proof.
  induction s as [| a s IH]; simpl; [discriminate |].
  destruct (trimRightByte s c) as [| b r] eqn:Er.
  - destruct (Ascii.eqb_spec a c) as [-> | Hne]; simpl; congruence.
  - exact IH.
Qed.

Lemma trimLeftByte_last (s : string) :
  Spec.last_byte s <> Some c -> Spec.last_byte (trimLeftByte s c) <> Some c.
Proof.
  induction s as [| a s IH]; simpl; [discriminate |].
  intros Hlast. destruct (Ascii.eqb_spec a c) as [-> | Hne].
  - destruct s as [| b s']; [simpl; discriminate | apply IH; exact Hlast].
  - exact Hlast.
Qed.

Lemma trimLeftByte_id (s : string) :
  Spec.first_byte s <> Some c -> trimLeftByte s c = s.
Proof.
  destruct s as [| a s]; simpl; [reflexivity |].
  intros Hfirst. destruct (Ascii.eqb_spec a c) as [-> | Hne]; congruence.
Qed.

Lemma trimRightByte_id (s : string) :
  Spec.last_byte s <> Some c -> trimRightByte s c = s.
Proof.
  induction s as [| a s IH]; [reflexivity |].
  intros Hlast. cbn [trimRightByte]. destruct s as [| b s'].
  - simpl in *. destruct (Ascii.eqb_spec a c) as [-> | Hne]; congruence.
  - rewrite IH by exact Hlast. reflexivity.
Qed.

End Trimming.

Lemma Trim_space (s : string) :
  Trim s " " = trimLeftByte (trimRightByte s space) space.
Proof. destruct s; reflexivity. Qed.

Lemma Trim_space_first (s : string) : Spec.first_byte (Trim s " ") <> Some space.
Proof. rewrite Trim_space. apply trimLeftByte_first. Qed.

Lemma Trim_space_last (s : string) : Spec.last_byte (Trim s " ") <> Some space.
Proof. rewrite Trim_space. apply trimLeftByte_last, trimRightByte_last. Qed.

Lemma Trim_space_fixed (s : string) :
  Spec.first_byte s <> Some space -> Spec.last_byte s <> Some space -> Trim s " " = s.
Proof.
  intros Hfirst Hlast. rewrite Trim_space.
  rewrite trimRightByte_id by exact Hlast. apply trimLeftByte_id. exact Hfirst.
Qed.

Lemma Trim_space_idempotent (s : string) : Trim (Trim s " ") " " = Trim s " ".
Proof. apply Trim_space_fixed; [apply Trim_space_first | apply Trim_space_last]. Qed.

Lemma append_String (a : ascii) (s1 s2 : string) :
  String.append (String a s1) s2 = String a (String.append s1 s2).
Proof. reflexivity. Qed.

Lemma trimLeftByte_split (s : string) (c : ascii) :
  exists k, s = String.append (Spec.repeat_byte k c) (trimLeftByte s c).
Proof.
  induction s as [| a s IH]; [exists 0%nat; reflexivity |].
  cbn [trimLeftByte]. destruct (Ascii.eqb_spec a c) as [-> | Hne].
  - destruct IH as [k Hk]. exists (S k).
    cbn [Spec.repeat_byte]. rewrite append_String. f_equal. exact Hk.
  - exists 0%nat. reflexivity.
Qed.

Lemma trimRightByte_split (s : string) (c : ascii) :
  exists k, s = String.append (trimRightByte s c) (Spec.repeat_byte k c).
Proof.
  induction s as [| a s IH]; [exists 0%nat; reflexivity |].
  destruct IH as [k Hk]. cbn [trimRightByte].
  destruct (trimRightByte s c) as [| b r].
  - change (String.append EmptyString (Spec.repeat_byte k c))
      with (Spec.repeat_byte k c) in Hk.
    destruct (Ascii.eqb_spec a c) as [-> | Hne].
    + exists (S k). rewrite Hk. reflexivity.
    + exists k. rewrite append_String, Hk. reflexivity.
  - exists k. rewrite append_String. f_equal. exact Hk.
Qed.

Lemma Trim_removes_only_surrounding_spaces (s : string) :
  exists i j,
    s = String.append
          (String.append (Spec.repeat_byte i space) (Trim s " "))
          (Spec.repeat_byte j space).
Proof.
  rewrite Trim_space.
  destruct (trimRightByte_split s space) as [j Hj].
  destruct (trimLeftByte_split (trimRightByte s space) space) as [i Hi].
  exists i, j. rewrite <- Hi. exact Hj.
Qed.

(** * Tags and their variants *)


Lemma basic_of_with_basic (f : basicTag -> basicTag) (t : Tag) :
  basic_of (with_basic f t) = f (basic_of t).
Proof. destruct t; reflexivity. Qed.


Lemma basic_of_decodeValue (byteOrder : ExifByteOrder) (v : exif_value_t) :
  basic_of (decodeValue byteOrder v) =
  {| tag := int (C_int (entry_tag (rawValue v)));
     label := Trim (ev_name v) " ";
     value := Trim (ev_value v) " " |}.
Proof.
  unfold decodeValue, setTag, setTextLabel, setTextValue.
  rewrite !basic_of_with_basic. reflexivity.
Qed.

Lemma variant_of_newTag (byteOrder : ExifByteOrder) (raw : ExifEntry) :
  variant_of (newTag byteOrder raw) =
  Spec.variant_for (Spec.format_code (C_int (entry_format raw))).
Proof.
  unfold newTag, Spec.format_code,
    exifFormatByte, exifFormatShort, exifFormatLong, exifFormatFloat.
  destruct (C_int (entry_format raw) =? 1); [reflexivity |].
  destruct (C_int (entry_format raw) =? 3); [reflexivity |].
  destruct (C_int (entry_format raw) =? 4); [reflexivity |].
  destruct (C_int (entry_format raw) =? 5); reflexivity.
Qed.

(** * The tag map *)

(** One turn of the loop, written with [pop_exif_value] as in the source. *)
Lemma parseExifData_loop_pop (values : exif_stack_t) (byteOrder : ExifByteOrder)
    (haveByteOrder : bool) (Tags0 : gmap Z Tag) :
  parseExifData_loop values byteOrder haveByteOrder Tags0 =
  match pop_exif_value values with
  | (None, _) => Tags0
  | (Some v, rest) =>
      let byteOrder' :=
        if haveByteOrder then byteOrder else parent_order (rawValue v) in
      parseExifData_loop rest byteOrder' true (store_tag Tags0 (decodeValue byteOrder' v))
  end.
Proof. destruct values; reflexivity. Qed.

Lemma parseExifData_loop_fold (values : exif_stack_t) (byteOrder : ExifByteOrder)
    (Tags0 : gmap Z Tag) :
  parseExifData_loop values byteOrder true Tags0 =
  fold_left (fun m v => store_tag m (decodeValue byteOrder v)) values Tags0.
Proof.
  revert Tags0. induction values as [| v rest IH]; intros Tags0; simpl;
    [reflexivity | apply IH].
Qed.

(** The walk decodes every value under the byte order of the first one. *)
Lemma parseExifData_loop_first (first : exif_value_t) (rest : exif_stack_t)
    (byteOrder : ExifByteOrder) (Tags0 : gmap Z Tag) :
  parseExifData_loop (first :: rest) byteOrder false Tags0 =
  fold_left (fun m v => store_tag m (decodeValue (parent_order (rawValue first)) v))
            (first :: rest) Tags0.
Proof. simpl. apply parseExifData_loop_fold. Qed.

Lemma fold_store_other (decode : exif_value_t -> Tag) (values : exif_stack_t)
    (Tags0 : gmap Z Tag) (id : Z) :
  Forall (fun v => Tag_id (decode v) <> id) values ->
  fold_left (fun m v => store_tag m (decode v)) values Tags0 !! id = Tags0 !! id.
Proof.
  revert Tags0. induction values as [| v rest IH]; intros Tags0 Hall; simpl;
    [reflexivity |].
  inversion Hall as [| ? ? Hv Hrest]; subst.
  rewrite IH by exact Hrest. unfold store_tag.
  apply lookup_insert_ne. exact Hv.
Qed.

Lemma Tag_id_decodeValue (byteOrder : ExifByteOrder) (v : exif_value_t) :
  Tag_id (decodeValue byteOrder v) = int (C_int (entry_tag (rawValue v))).
Proof. unfold Tag_id. rewrite basic_of_decodeValue. reflexivity. Qed.

(** C6: in every tag map, storing [t1] and then a tag [t2] with the same id
    leaves [t2], and only [t2], retrievable under that id: the second store
    overwrites the first one. *)
Theorem last_write_wins (Tags0 : gmap Z Tag) (t1 t2 : Tag) :
  Tag_id t1 = Tag_id t2 ->
  store_tag (store_tag Tags0 t1) t2 !! Tag_id t1 = Some t2 /\
  store_tag (store_tag Tags0 t1) t2 = store_tag Tags0 t2.
Proof.
  intros Hid. unfold store_tag. rewrite Hid. split.
  - apply lookup_insert_eq.
  - apply insert_insert_eq.
Qed.

Lemma last_write_wins_witness :
  Tag_id (IntegerTag {| integer_basicTag := {| tag := 274; label := "a"; value := "1" |};
                        intValue := 1 |}) =
  Tag_id (BasicTag {| tag := 274; label := "b"; value := "6" |}) /\
  store_tag (store_tag ∅
      (IntegerTag {| integer_basicTag := {| tag := 274; label := "a"; value := "1" |};
                     intValue := 1 |}))
      (BasicTag {| tag := 274; label := "b"; value := "6" |}) !! 274 =
  Some (BasicTag {| tag := 274; label := "b"; value := "6" |}).
Proof.
  split; [reflexivity |].
  apply (last_write_wins ∅
           (IntegerTag {| integer_basicTag := {| tag := 274; label := "a"; value := "1" |};
                          intValue := 1 |})
           (BasicTag {| tag := 274; label := "b"; value := "6" |})).
  reflexivity.
Defined.

(** Two values with the same tag id in one walk: the later one is kept. *)
Lemma walk_last_entry_wins (byteOrder : ExifByteOrder) (v1 v2 : exif_value_t)
    (Tags0 : gmap Z Tag) :
  entry_tag (rawValue v1) = entry_tag (rawValue v2) ->
  parseExifData_loop [v1; v2] byteOrder true Tags0
    !! int (C_int (entry_tag (rawValue v1))) = Some (decodeValue byteOrder v2).
Proof.
  intros Hid. simpl. unfold store_tag at 1.
  rewrite Tag_id_decodeValue, Hid. apply lookup_insert_eq.
Qed.

(** * Decoding one entry *)

(** C9: the label and the text value of every decoded tag are the raw label
    and the raw preformatted value without their surrounding spaces: each
    raw text is the stored text between two runs of spaces, the stored text
    neither begins nor ends with a space, and trimming it again changes
    nothing. *)
Theorem decoded_text_is_trimmed (byteOrder : ExifByteOrder) (v : exif_value_t) :
  (exists i j,
      ev_name v = String.append
                    (String.append (Spec.repeat_byte i space)
                                   (TextLabel (decodeValue byteOrder v)))
                    (Spec.repeat_byte j space)) /\
  (exists i j,
      ev_value v = String.append
                     (String.append (Spec.repeat_byte i space)
                                    (TextValue (decodeValue byteOrder v)))
                     (Spec.repeat_byte j space)) /\
  TextLabel (decodeValue byteOrder v) = Trim (ev_name v) " " /\
  TextValue (decodeValue byteOrder v) = Trim (ev_value v) " " /\
  Spec.first_byte (TextLabel (decodeValue byteOrder v)) <> Some space /\
  Spec.last_byte (TextLabel (decodeValue byteOrder v)) <> Some space /\
  Spec.first_byte (TextValue (decodeValue byteOrder v)) <> Some space /\
  Spec.last_byte (TextValue (decodeValue byteOrder v)) <> Some space /\
  Trim (TextLabel (decodeValue byteOrder v)) " " = TextLabel (decodeValue byteOrder v) /\
  Trim (TextValue (decodeValue byteOrder v)) " " = TextValue (decodeValue byteOrder v).
Proof.
  unfold TextLabel, TextValue. rewrite basic_of_decodeValue. simpl.
  split; [apply Trim_removes_only_surrounding_spaces |].
  split; [apply Trim_removes_only_surrounding_spaces |].
  repeat split;
    auto using Trim_space_first, Trim_space_last, Trim_space_idempotent.
Qed.

Example trim_orientation :
  TextLabel (decodeValue EXIF_BYTE_ORDER_MOTOROLA
               (Sample.short_entry 274 EXIF_BYTE_ORDER_MOTOROLA x00 x01)) = "Orientation" /\
  TextValue (decodeValue EXIF_BYTE_ORDER_MOTOROLA
               (Sample.short_entry 274 EXIF_BYTE_ORDER_MOTOROLA x00 x01)) = "Top-left".
Proof. split; reflexivity. Qed.

(** Only spaces are trimmed, and only at the two ends. *)
Example trim_keeps_inner_spaces_and_tabs :
  Trim "  a  b  " " " = "a  b" /\
  Trim (String (Ascii.ascii_of_nat 9) " x ") " " = String (Ascii.ascii_of_nat 9) " x".
Proof. split; reflexivity. Qed.

Section Decoding.
Context `{LibExif}.


End Decoding.

(** A rational with a zero denominator is decoded like any other; its float
    value is an infinity, or not a number when the numerator is zero too. *)
Example zero_denominator_decodes :
  newTag EXIF_BYTE_ORDER_MOTOROLA
    (rawValue (Sample.rational_entry 6 EXIF_BYTE_ORDER_MOTOROLA 1 (Sample.be_rational x01 x00)))
  = FloatTag {| float_basicTag := basicTag_zero; numerator := 1; denominator := 0 |} /\
  FloatValue {| float_basicTag := basicTag_zero; numerator := 1; denominator := 0 |}
  = S754_infinity false /\
  FloatValue {| float_basicTag := basicTag_zero; numerator := 0; denominator := 0 |}
  = S754_nan.
Proof. repeat split; reflexivity. Qed.

(** The earlier revision knows two numeric formats only. *)
Lemma ExifGo_variant_of_newTag (raw : ExifEntry) :
  variant_of (ExifGo.newTag raw) =
  if (C_int (entry_format raw) =? 3) || (C_int (entry_format raw) =? 4)
  then VInteger else VBasic.
Proof.
  unfold ExifGo.newTag, exifFormatShort, exifFormatLong.
  destruct (C_int (entry_format raw) =? 3); [reflexivity |].
  destruct (C_int (entry_format raw) =? 4); reflexivity.
Qed.

(** * The streaming loader *)

Section Loader.
Context `{LibExif}.

Lemma firstn_C_uint_len (p : list byte) :
  len p < 2 ^ 32 -> firstn (Z.to_nat (C_uint (len p))) p = p.
Proof.
  intros Hlen. unfold C_uint, len in *.
  rewrite Z.mod_small by lia. rewrite Nat2Z.id. apply firstn_all.
Qed.

(** A [Write] that can go on is [write_chunk] on the [Data] with its loader
    in place. *)
Lemma Write_writable (d : Data) (p : list byte) :
  writable d = true ->
  Write d p =
  write_chunk
    {| exifLoader := Some (default exif_loader_new (exifLoader d));
       finalizer := match exifLoader d with None => true | Some _ => finalizer d end;
       Tags := Tags d |}
    (default exif_loader_new (exifLoader d)) p.
Proof.
  unfold writable, Write. destruct d as [[l |] [|] tags]; simpl;
    intros Hw; try discriminate Hw; destruct p; reflexivity.
Qed.

(** C3: after a [Write] and the [Parse] that ends the stream, the next
    [Write] of a non-empty chunk on the same [Data] does not return: the
    loader is nil again, the finalizer is still registered, and
    [runtime.SetFinalizer] throws.  And a first [Write] of a chunk of
    exactly 4 GiB returns that length although libexif is handed no byte
    at all. *)
Theorem Write_after_Parse_is_fatal (b1 b2 : byte) (p1 p2 : list byte) :
  fst (Write (snd (Parse (snd (Write New (b1 :: p1))))) (b2 :: p2)) =
    Thrown "runtime.SetFinalizer: finalizer already set" /\
  (len (b1 :: p1) = 2 ^ 32 ->
   Write New (b1 :: p1) =
   (Returned (2 ^ 32,
              if snd (exif_loader_write exif_loader_new []) =? 1
              then None else Some ErrFoundExifInData),
    {| exifLoader := Some (fst (exif_loader_write exif_loader_new []));
       finalizer := true; Tags := ∅ |})).
Proof.
  split.
  - unfold Write at 2. cbn [exifLoader finalizer New write_chunk Tags].
    destruct (exif_loader_write exif_loader_new _) as [loader res].
    assert (Hparse : forall r,
               exifLoader (snd (Parse {| exifLoader := Some loader;
                                         finalizer := true; Tags := r |})) = None /\
               finalizer (snd (Parse {| exifLoader := Some loader;
                                        finalizer := true; Tags := r |})) = true).
    { intros r. unfold Parse, cleanup. cbn [exifLoader].
      destruct (exif_loader_get_data loader); split; reflexivity. }
    destruct (res =? 1); cbn [snd];
      destruct (Hparse ∅) as [Hl Hf];
      unfold Write; rewrite Hl, Hf; reflexivity.
  - intros Hlen. unfold Write. cbn [exifLoader finalizer New write_chunk Tags].
    rewrite Hlen. change (Z.to_nat (C_uint (2 ^ 32))) with 0%nat.
    cbn [firstn].
    destruct (exif_loader_write exif_loader_new []) as [loader res]. cbn [fst snd].
    destruct (res =? 1); reflexivity.
Qed.

Lemma Write_result_follows_libexif_aux (d : Data) (b : byte) (p : list byte) :
  writable d = true ->
  Write d (b :: p) =
  (Returned (len (b :: p),
             if snd (exif_loader_write (default exif_loader_new (exifLoader d))
                       (firstn (Z.to_nat (C_uint (len (b :: p)))) (b :: p))) =? 1
             then None else Some ErrFoundExifInData),
   {| exifLoader :=
        Some (fst (exif_loader_write (default exif_loader_new (exifLoader d))
                     (firstn (Z.to_nat (C_uint (len (b :: p)))) (b :: p))));
      finalizer := match exifLoader d with None => true | Some _ => finalizer d end;
      Tags := Tags d |}).
Proof.
  intros Hw. rewrite (Write_writable d (b :: p) Hw). unfold write_chunk.
  destruct (exif_loader_write _ _) as [loader' res]. cbn [fst snd finalizer Tags].
  destruct (res =? 1); reflexivity.
Qed.

(** On a [Data] that can be written to, [Write] of a non-empty chunk
    returns the length of the chunk, with no error exactly when libexif
    answers 1 and with [ErrFoundExifInData] for every other answer; libexif
    is handed the first [len(p) mod 2^32] bytes, and the tags stay. *)
Theorem Write_result_follows_libexif (d : Data) (b : byte) (p : list byte) :
  writable d = true ->
  Write d (b :: p) =
  (Returned (len (b :: p),
             if snd (exif_loader_write (default exif_loader_new (exifLoader d))
                       (firstn (Z.to_nat (C_uint (len (b :: p)))) (b :: p))) =? 1
             then None else Some ErrFoundExifInData),
   {| exifLoader :=
        Some (fst (exif_loader_write (default exif_loader_new (exifLoader d))
                     (firstn (Z.to_nat (C_uint (len (b :: p)))) (b :: p))));
      finalizer := match exifLoader d with None => true | Some _ => finalizer d end;
      Tags := Tags d |}).
Proof. exact (Write_result_follows_libexif_aux d b p). Qed.

(** C5: [Write] with an empty chunk never returns.  On a [Data] that can be
    written to it panics on [&p[0]], after it has created the loader of a
    [Data] that had none; otherwise the runtime throws before that. *)
Theorem Write_empty_chunk_panics (d : Data) :
  Write d [] =
  (if writable d
   then Panicked "runtime error: index out of range [0] with length 0"
   else Thrown "runtime.SetFinalizer: finalizer already set",
   {| exifLoader := Some (default exif_loader_new (exifLoader d));
      finalizer := match exifLoader d with None => true | Some _ => finalizer d end;
      Tags := Tags d |}) /\
  Write New [] =
  (Panicked "runtime error: index out of range [0] with length 0",
   {| exifLoader := Some exif_loader_new; finalizer := true; Tags := ∅ |}) /\
  exifLoader New = None /\
  exifLoader (snd (Write New [])) = Some exif_loader_new.
Proof.
  split; [| split; [| split]]; try reflexivity.
  destruct d as [[l |] [|] tags]; reflexivity.
Qed.

(** C4: [Parse] on a [Data] that was never written to returns an error and
    leaves the tags empty, but the error is a new value made by
    [fmt.Errorf], with a mangled text: it is not [ErrNoExifData]. *)
Theorem Parse_without_data_returns_other_error :
  Parse New = (Some (fmt_error "No EXIF data found.%!(EXTRA string=)"), New) /\
  Tags (snd (Parse New)) = ∅ /\
  fst (Parse New) <> Some ErrNoExifData /\
  fst (Parse New) <> Some ErrFoundExifInData /\
  Error (fmt_error "No EXIF data found.%!(EXTRA string=)") <> Error ErrNoExifData.
Proof.
  repeat split; try reflexivity; simpl; intros Heq; discriminate Heq.
Qed.

(** The same holds whenever libexif finds no EXIF data in what was
    written: the tags stay as they were and the loader is released. *)
Lemma Parse_no_data (d : Data) :
  match exifLoader d with
  | None => True
  | Some l => exif_loader_get_data l = None
  end ->
  Parse d = (Some (fmt_error "No EXIF data found.%!(EXTRA string=)"),
             {| exifLoader := None; finalizer := finalizer d; Tags := Tags d |}).
Proof.
  unfold Parse, cleanup. destruct d as [[l |] fin tags]; simpl.
  - intros ->. reflexivity.
  - intros _. reflexivity.
Qed.

(** [Open], in contrast, returns the sentinel itself. *)
Lemma Open_no_data (d : Data) (file : string) :
  exif_data_new_from_file file = None -> Open d file = (Some ErrNoExifData, d).
Proof. unfold Open. intros ->. reflexivity. Qed.

Lemma Read_no_data (file : string) :
  exif_data_new_from_file file = None -> Read file = (None, Some ErrNoExifData).
Proof. unfold Read. intros Hf. rewrite Open_no_data by exact Hf. reflexivity. Qed.

End Loader.

Lemma Write_result_follows_libexif_witness :
  writable (@New Sample.lib) = true /\
  Write (@New Sample.lib) [x4d; x4d] =
  (Returned (2, None),
   {| exifLoader := Some [x4d; x4d]; finalizer := true; Tags := ∅ |}).
Proof.
  split; [reflexivity |].
  apply (@Write_result_follows_libexif Sample.lib New x4d [x4d]). reflexivity.
Defined.

(** The sample loader asks for more after [MM] and reports the header once
    it holds [MM*] and one more byte; after the [Parse] a further [Write]
    is fatal. *)
Example Write_sample_stream :
  fst (Write New [x4d; x4d]) = Returned (2, None) /\
  fst (Write (snd (Write New [x4d; x4d])) [x2a; x00]) = Returned (2, Some ErrFoundExifInData) /\
  fst (Parse (snd (Write (snd (Write New [x4d; x4d])) [x2a; x00]))) = None /\
  fst (Write (snd (Parse (snd (Write (snd (Write New [x4d; x4d])) [x2a; x00])))) [x4d]) =
    Thrown "runtime.SetFinalizer: finalizer already set".
Proof. repeat split; reflexivity. Qed.

(** * The walk and its byte order *)

Lemma parseExifData_loop_walk_order (values : exif_stack_t) (byteOrder : ExifByteOrder)
    (Tags0 : gmap Z Tag) :
  parseExifData_loop values byteOrder false Tags0 =
  fold_left (fun m v => store_tag m (decodeValue (walk_order values) v)) values Tags0.
Proof.
  destruct values as [| first rest]; [reflexivity |].
  apply parseExifData_loop_first.
Qed.

Lemma newTag_integer (byteOrder : ExifByteOrder) (raw : ExifEntry) :
  Spec.variant_for (Spec.format_code (C_int (entry_format raw))) = VInteger ->
  newTag byteOrder raw =
  IntegerTag {| integer_basicTag := basicTag_zero;
                intValue := Spec.payload_value (Spec.format_code (C_int (entry_format raw)))
                              byteOrder (entry_data raw) |}.
Proof.
  unfold newTag, Spec.format_code, Spec.payload_value,
    exifFormatByte, exifFormatShort, exifFormatLong, exifFormatFloat.
  destruct (C_int (entry_format raw) =? 1).
  { intros _. rewrite int_small; [reflexivity |].
    pose proof (buf_at_range (entry_data raw) 0). lia. }
  destruct (C_int (entry_format raw) =? 3).
  { intros _. rewrite int_exif_get_short, exif_get_short_value. reflexivity. }
  destruct (C_int (entry_format raw) =? 4).
  { intros _. rewrite int_exif_get_long, exif_get_long_value. reflexivity. }
  destruct (C_int (entry_format raw) =? 5); simpl; discriminate.
Qed.

Lemma fold_store_ext (f g : exif_value_t -> Tag) (values : exif_stack_t)
    (Tags0 : gmap Z Tag) :
  Forall (fun v => f v = g v) values ->
  fold_left (fun m v => store_tag m (f v)) values Tags0 =
  fold_left (fun m v => store_tag m (g v)) values Tags0.
Proof.
  intros Hall. revert Tags0.
  induction Hall as [| v rest Hv _ IH]; intros Tags0; [reflexivity |].
  cbn [fold_left]. rewrite Hv. apply IH.
Qed.

(** When all values of a walk carry one byte order, the order read from the
    first value is the own order of each of them. *)
Lemma parseExifData_loop_own_order (values : exif_stack_t) (root byteOrder : ExifByteOrder)
    (Tags0 : gmap Z Tag) :
  Forall (fun w => parent_order (rawValue w) = root) values ->
  parseExifData_loop values byteOrder false Tags0 =
  fold_left (fun m v => store_tag m (decodeValue (parent_order (rawValue v)) v))
            values Tags0.
Proof.
  intros Hroot. rewrite parseExifData_loop_walk_order.
  apply fold_store_ext.
  destruct values as [| first rest]; [constructor |].
  assert (Hfirst : walk_order (first :: rest) = root)
    by (inversion Hroot; assumption).
  rewrite Hfirst. eapply Forall_impl; [exact Hroot |].
  intros w Hw. simpl in Hw. rewrite Hw. reflexivity.
Qed.

Lemma decodeValue_integer (byteOrder : ExifByteOrder) (v : exif_value_t) :
  C_int (entry_format (rawValue v)) = exifFormatShort \/
  C_int (entry_format (rawValue v)) = exifFormatLong ->
  decodeValue byteOrder v =
  IntegerTag
    {| integer_basicTag :=
         {| tag := int (C_int (entry_tag (rawValue v)));
            label := Trim (ev_name v) " ";
            value := Trim (ev_value v) " " |};
       intValue := Spec.payload_value
                     (Spec.format_code (C_int (entry_format (rawValue v))))
                     byteOrder (entry_data (rawValue v)) |}.
Proof.
  intros Hfmt. unfold decodeValue. rewrite newTag_integer; [reflexivity |].
  destruct Hfmt as [-> | ->]; reflexivity.
Qed.

(** C2: every value of a walk belongs to the one ExifData the walk was
    dumped from and so carries that data's byte order.  In such a walk
    every Short or Long value, the first one or a later one, is decoded to
    the standard interpretation of its payload under its own byte order:
    the walk stores the decoding of each value under that value's order,
    and the tag kept for the id of a Short or Long value holds that
    interpretation.  Bytes 00 01 are 1 as a big-endian short and 256 as a
    little-endian one. *)
Theorem integers_decoded_under_own_order (before after : exif_stack_t)
    (v : exif_value_t) (root : ExifByteOrder) (Tags0 : gmap Z Tag) :
  Forall (fun w => parent_order (rawValue w) = root) (before ++ v :: after)%list ->
  C_int (entry_format (rawValue v)) = exifFormatShort \/
  C_int (entry_format (rawValue v)) = exifFormatLong ->
  Forall (fun w => int (C_int (entry_tag (rawValue w))) <>
                   int (C_int (entry_tag (rawValue v)))) after ->
  parseExifData_loop (before ++ v :: after)%list EXIF_BYTE_ORDER_MOTOROLA false Tags0 =
    fold_left (fun m w => store_tag m (decodeValue (parent_order (rawValue w)) w))
              (before ++ v :: after)%list Tags0 /\
  (exists t,
      parseExifData_loop (before ++ v :: after)%list EXIF_BYTE_ORDER_MOTOROLA false Tags0
        !! int (C_int (entry_tag (rawValue v))) = Some (IntegerTag t) /\
      IntValue t =
        Spec.payload_value (Spec.format_code (C_int (entry_format (rawValue v))))
          (parent_order (rawValue v)) (entry_data (rawValue v))) /\
  Spec.payload_value Spec.Short EXIF_BYTE_ORDER_MOTOROLA [x00; x01] = 1 /\
  Spec.payload_value Spec.Short EXIF_BYTE_ORDER_INTEL [x00; x01] = 256.
Proof.
  intros Hroot Hfmt Hafter.
  pose proof (parseExifData_loop_own_order _ root EXIF_BYTE_ORDER_MOTOROLA Tags0 Hroot)
    as Hwalk.
  split; [exact Hwalk |].
  split; [| split; reflexivity].
  rewrite Hwalk, fold_left_app. cbn [fold_left].
  rewrite (fold_store_other (fun w => decodeValue (parent_order (rawValue w)) w)).
  - unfold store_tag. rewrite Tag_id_decodeValue, lookup_insert_eq.
    rewrite (decodeValue_integer _ v Hfmt).
    eexists. split; reflexivity.
  - eapply Forall_impl; [exact Hafter |].
    intros w Hw. simpl in Hw. rewrite Tag_id_decodeValue. exact Hw.
Qed.

Lemma integers_decoded_under_own_order_witness :
  Forall (fun w => parent_order (rawValue w) = EXIF_BYTE_ORDER_INTEL)
    ([Sample.short_entry 1 EXIF_BYTE_ORDER_INTEL x00 x02] ++
     Sample.short_entry 2 EXIF_BYTE_ORDER_INTEL x00 x01 :: [])%list /\
  exists t,
    parseExifData_loop
      ([Sample.short_entry 1 EXIF_BYTE_ORDER_INTEL x00 x02] ++
       Sample.short_entry 2 EXIF_BYTE_ORDER_INTEL x00 x01 :: [])%list
      EXIF_BYTE_ORDER_MOTOROLA false ∅ !! int (C_int 2) = Some (IntegerTag t) /\
    IntValue t = 256.
Proof.
  split; [repeat constructor |].
  apply (proj1 (proj2 (integers_decoded_under_own_order
           [Sample.short_entry 1 EXIF_BYTE_ORDER_INTEL x00 x02] []
           (Sample.short_entry 2 EXIF_BYTE_ORDER_INTEL x00 x01)
           EXIF_BYTE_ORDER_INTEL ∅
           ltac:(repeat constructor) ltac:(left; reflexivity) ltac:(constructor)))).
Defined.

(** The byte order the decoder uses for a Short is the one that counts:
    the same payload gives two values. *)
Example short_under_both_orders :
  newTag EXIF_BYTE_ORDER_MOTOROLA
    (rawValue (Sample.short_entry 1 EXIF_BYTE_ORDER_MOTOROLA x00 x01)) =
    IntegerTag {| integer_basicTag := basicTag_zero; intValue := 1 |} /\
  newTag EXIF_BYTE_ORDER_INTEL
    (rawValue (Sample.short_entry 1 EXIF_BYTE_ORDER_INTEL x00 x01)) =
    IntegerTag {| integer_basicTag := basicTag_zero; intValue := 256 |}.
Proof. split; reflexivity. Qed.

(** The earlier revision passes each value's own byte order. *)
Lemma ExifGo_own_byte_order (values : exif_stack_t) (Tags0 : gmap Z Tag) :
  ExifGo.parseExifData_loop values Tags0 =
  fold_left (fun m v => store_tag m (ExifGo.decodeValue v)) values Tags0.
Proof.
  revert Tags0. induction values as [| v rest IH]; intros Tags0; simpl;
    [reflexivity | apply IH].
Qed.

Example ExifGo_mixed_walk :
  ExifGo.parseExifData_loop Sample.mixed_walk ∅ !! 2 =
  Some (IntegerTag {| integer_basicTag :=
                        {| tag := 2; label := "Orientation"; value := "Top-left" |};
                      intValue := 256 |}).
Proof. reflexivity. Qed.

(** * The life of the tag map *)

Section Lifecycle.
Context `{LibExif}.

Lemma Tags_parseExifData (d : Data) (exifData : ExifData) :
  Tags (snd (parseExifData d exifData)) =
  fold_left (fun m v => store_tag m (decodeValue (walk_order (exif_dump exifData)) v))
            (exif_dump exifData) (Tags d).
Proof. simpl. apply parseExifData_loop_walk_order. Qed.

Lemma Tags_Write (d : Data) (p : list byte) : Tags (snd (Write d p)) = Tags d.
Proof.
  unfold Write, write_chunk.
  destruct (exifLoader d) as [l |]; [| destruct (finalizer d); [reflexivity |]];
    (destruct p as [| b p']; [reflexivity |]);
    destruct (exif_loader_write _ _) as [loader' res];
    destruct (res =? 1); reflexivity.
Qed.

Lemma Tags_cleanup (d : Data) : Tags (cleanup d) = Tags d.
Proof. unfold cleanup. destruct (exifLoader d); reflexivity. Qed.

(** C10, as the code has it: [New] makes the map empty; a walk stores its
    tags one by one into the map the [Data] already has, so every id the
    walk does not decode keeps the tag it had; [Open] and [Parse] run that
    walk when libexif finds data and leave the map alone when it does not;
    [Write] never touches the map. *)
Theorem tags_accumulate_across_decodes (d : Data) (exifData : ExifData)
    (file : string) (p : list byte) (id : Z) :
  Tags New = ∅ /\
  Tags (snd (parseExifData d exifData)) =
    fold_left (fun m v => store_tag m (decodeValue (walk_order (exif_dump exifData)) v))
              (exif_dump exifData) (Tags d) /\
  (Forall (fun v => int (C_int (entry_tag (rawValue v))) <> id) (exif_dump exifData) ->
   Tags (snd (parseExifData d exifData)) !! id = Tags d !! id) /\
  Open d file =
    match exif_data_new_from_file file with
    | None => (Some ErrNoExifData, d)
    | Some found => parseExifData d found
    end /\
  Tags (snd (Parse d)) =
    match exifLoader d with
    | None => Tags d
    | Some l =>
        match exif_loader_get_data l with
        | None => Tags d
        | Some found => Tags (snd (parseExifData d found))
        end
    end /\
  Tags (snd (Write d p)) = Tags d.
Proof.
  split; [reflexivity |].
  split; [apply Tags_parseExifData |].
  split.
  { intros Hall. rewrite Tags_parseExifData. apply fold_store_other.
    eapply Forall_impl; [exact Hall |].
    intros v Hv. simpl in Hv. rewrite Tag_id_decodeValue. exact Hv. }
  split; [reflexivity |].
  split; [| apply Tags_Write].
  unfold Parse. destruct (exifLoader d) as [l |] eqn:Hl.
  - destruct (exif_loader_get_data l) as [found |].
    + simpl. unfold cleanup. simpl. rewrite Hl. reflexivity.
    + simpl. apply Tags_cleanup.
  - simpl. apply Tags_cleanup.
Qed.

End Lifecycle.

Lemma tags_accumulate_across_decodes_witness :
  Forall (fun v => int (C_int (entry_tag (rawValue v))) <> 274) Sample.gps_walk /\
  Tags (snd (parseExifData (snd (Open New "orientation.jpg")) Sample.gps_walk)) !! 274 =
  Tags (snd (Open New "orientation.jpg")) !! 274.
Proof.
  split.
  - repeat constructor. vm_compute. discriminate.
  - apply (proj1 (proj2 (proj2
      (@tags_accumulate_across_decodes Sample.lib
         (snd (Open New "orientation.jpg")) Sample.gps_walk "gps.jpg" [] 274)))).
    repeat constructor. vm_compute. discriminate.
Defined.

(** A second [Open] on the [Data] that [Read] returned changes its map and
    keeps the orientation tag of the first file, which a decode of the
    second file alone does not contain. *)
Lemma second_Open_keeps_earlier_tags :
  exists d1 d2 fresh t,
    Read "orientation.jpg" = (Some d1, None) /\
    Open d1 "gps.jpg" = (None, d2) /\
    Tags d2 <> Tags d1 /\
    Tags d2 !! 274 = Some t /\
    Read "gps.jpg" = (Some fresh, None) /\
    Tags fresh !! 274 = None.
Proof.
  eexists _, _, _, _.
  split; [reflexivity |]. split; [reflexivity |].
  split.
  { intros Heq. apply (f_equal (fun m => m !! 2)) in Heq.
    vm_compute in Heq. discriminate Heq. }
  split; [reflexivity |]. split; reflexivity.
Qed.

(** * Rational entries *)

Lemma C_int_small (z : Z) : -2 ^ 31 <= z < 2 ^ 31 -> C_int z = z.
Proof.
  intros Hz. unfold C_int, wrap. change (32 - 1) with 31.
  rewrite Z.mod_small; lia.
Qed.

Lemma int_rational_offset (data : list byte) (order : ExifByteOrder) (i : Z) :
  int (r_numerator (exif_get_rational_offset data order i)) =
    r_numerator (exif_get_rational_offset data order i) /\
  int (r_denominator (exif_get_rational_offset data order i)) =
    r_denominator (exif_get_rational_offset data order i).
Proof. split; apply int_exif_get_long. Qed.

Lemma eqm_int_l (a b : Z) : eqm (2 ^ 64) a b -> eqm (2 ^ 64) (int a) b.
Proof. unfold eqm. intros Hab. rewrite int_mod. exact Hab. Qed.

(** Congruence modulo [2^64]: [int] can be dropped under sums and products. *)
Ltac eqm_strip :=
  lazymatch goal with
  | |- eqm _ (int _) _ => apply eqm_int_l; eqm_strip
  | |- eqm _ (_ + _) (_ + _) => apply Zplus_eqm; eqm_strip
  | |- eqm _ (_ * _) (_ * _) => apply Zmult_eqm; eqm_strip
  | |- _ => reflexivity
  end.

(** The operations of the loop body, each wrapped to 64 bits, agree with the
    recurrence wrapped once. *)
Lemma int_fold_numerator (n d rn rd : Z) :
  int_add (int_mul (int_mul 60 n) (int rd)) (int_mul (int rn) d) =
  int (60 * n * rd + rn * d).
Proof. unfold int_add, int_mul. apply eqm_int. eqm_strip. Qed.

Lemma int_fold_denominator (d rd : Z) :
  int_mul (int_mul d (int rd)) 60 = int (d * rd * 60).
Proof. unfold int_mul. apply eqm_int. eqm_strip. Qed.

Lemma fold_components_spec (data : list byte) (order : ExifByteOrder) (steps : nat) :
  forall (i : nat) (t : floatTag),
    Z.of_nat i + Z.of_nat steps <= 2 ^ 31 ->
    (numerator (fold_components data order (Z.of_nat i) steps t),
     denominator (fold_components data order (Z.of_nat i) steps t)) =
    fold_left Spec.fold_step
      (map (fun j => exif_get_rational_offset data order (Z.of_nat j)) (seq i steps))
      (numerator t, denominator t).
Proof.
  induction steps as [| k IH]; intros i t Hbound; [reflexivity |].
  cbn [fold_components seq map fold_left].
  rewrite C_int_small by lia.
  replace (Z.of_nat i + 1) with (Z.of_nat (S i)) by lia.
  rewrite IH by lia. f_equal.
  unfold Spec.fold_step. cbn [numerator denominator fst snd].
  rewrite int_fold_numerator, int_fold_denominator. reflexivity.
Qed.

Lemma fold_components_basic (data : list byte) (order : ExifByteOrder) (steps : nat) :
  forall (i : Z) (t : floatTag),
    float_basicTag (fold_components data order i steps t) = float_basicTag t.
Proof.
  induction steps as [| k IH]; intros i t; [reflexivity |].
  cbn [fold_components]. rewrite IH. reflexivity.
Qed.

Lemma newTag_float (byteOrder : ExifByteOrder) (raw : ExifEntry) :
  entry_format raw = exifFormatFloat ->
  newTag byteOrder raw =
  FloatTag
    (if 1 <? int (entry_components raw)
     then fold_components (entry_data raw) byteOrder 1
            (Z.to_nat (int (entry_components raw) - 1))
            {| float_basicTag := basicTag_zero;
               numerator := int (r_numerator (exif_get_rational (entry_data raw) byteOrder));
               denominator := int (r_denominator (exif_get_rational (entry_data raw) byteOrder)) |}
     else {| float_basicTag := basicTag_zero;
             numerator := int (r_numerator (exif_get_rational (entry_data raw) byteOrder));
             denominator := int (r_denominator (exif_get_rational (entry_data raw) byteOrder)) |}).
Proof. unfold newTag. intros ->. reflexivity. Qed.

(** The recurrence does not tell the later components apart: swapping two
    of them gives the same pair, also when the arithmetic wraps. *)
Lemma fold_step_swap (acc : Z * Z) (r1 r2 : ExifRational) :
  Spec.fold_step (Spec.fold_step acc r1) r2 = Spec.fold_step (Spec.fold_step acc r2) r1.
Proof.
  destruct acc as [n d], r1 as [n1 d1], r2 as [n2 d2].
  unfold Spec.fold_step. cbn [fst snd r_numerator r_denominator].
  f_equal; apply eqm_int.
  - apply eqm_trans with (b := 60 * (60 * n * d1 + n1 * d) * d2 + n2 * (d * d1 * 60));
      [eqm_strip |].
    apply eqm_trans with (b := 60 * (60 * n * d2 + n2 * d) * d1 + n1 * (d * d2 * 60));
      [| apply eqm_sym; eqm_strip].
    unfold eqm. f_equal. ring.
  - apply eqm_trans with (b := d * d1 * 60 * d2 * 60); [eqm_strip |].
    apply eqm_trans with (b := d * d2 * 60 * d1 * 60); [| apply eqm_sym; eqm_strip].
    unfold eqm. f_equal. ring.
Qed.

Lemma fold_step_permutation (l1 l2 : list ExifRational) :
  Permutation l1 l2 ->
  forall acc, fold_left Spec.fold_step l1 acc = fold_left Spec.fold_step l2 acc.
Proof.
  induction 1 as [| r l1 l2 _ IH | r1 r2 l | l1 l2 l3 _ IH12 _ IH23]; intros acc.
  - reflexivity.
  - simpl. apply IH.
  - simpl. rewrite fold_step_swap. reflexivity.
  - rewrite IH12. apply IH23.
Qed.

(** C7: a rational entry with one component is stored as the pair that was
    read; the float value is computed from the two stored integers, 0.5 for
    the pair 1, 2. *)
Theorem single_rational_stored_as_read (byteOrder : ExifByteOrder) (v : exif_value_t) :
  entry_format (rawValue v) = exifFormatFloat ->
  entry_components (rawValue v) = 1 ->
  exists t,
    decodeValue byteOrder v = FloatTag t /\
    Numerator t = r_numerator (exif_get_rational (entry_data (rawValue v)) byteOrder) /\
    Denominator t = r_denominator (exif_get_rational (entry_data (rawValue v)) byteOrder) /\
    FloatValue t =
      SFdiv prec emax (float64_of_int (Numerator t)) (float64_of_int (Denominator t)) /\
    (Numerator t = 1 -> Denominator t = 2 ->
     FloatValue t = S754_finite false 4503599627370496 (-53) /\
     float64_to_Q (FloatValue t) = Some (1 # 2)%Q).
Proof.
  intros Hfmt Hn. unfold decodeValue.
  rewrite (newTag_float byteOrder (rawValue v) Hfmt), Hn.
  change (1 <? int 1) with false. cbn iota.
  eexists. split; [reflexivity |].
  cbn [Numerator Denominator numerator denominator].
  unfold exif_get_rational. cbn [r_numerator r_denominator].
  rewrite !int_exif_get_long.
  split; [reflexivity |]. split; [reflexivity |]. split; [reflexivity |].
  intros H1 H2. unfold FloatValue. cbn [numerator denominator].
  rewrite H1, H2. split; reflexivity.
Qed.

Lemma single_rational_stored_as_read_witness :
  entry_format (rawValue (Sample.rational_entry 7 EXIF_BYTE_ORDER_MOTOROLA 1
                            (Sample.be_rational x01 x02))) = exifFormatFloat /\
  entry_components (rawValue (Sample.rational_entry 7 EXIF_BYTE_ORDER_MOTOROLA 1
                                (Sample.be_rational x01 x02))) = 1 /\
  exists t,
    decodeValue EXIF_BYTE_ORDER_MOTOROLA
      (Sample.rational_entry 7 EXIF_BYTE_ORDER_MOTOROLA 1 (Sample.be_rational x01 x02))
    = FloatTag t /\
    Numerator t = 1 /\ Denominator t = 2 /\
    float64_to_Q (FloatValue t) = Some (1 # 2)%Q.
Proof.
  split; [reflexivity |]. split; [reflexivity |].
  destruct (single_rational_stored_as_read EXIF_BYTE_ORDER_MOTOROLA
              (Sample.rational_entry 7 EXIF_BYTE_ORDER_MOTOROLA 1
                 (Sample.be_rational x01 x02)) eq_refl eq_refl)
    as [t [Ht [Hn [Hd [_ Hhalf]]]]].
  exists t. split; [exact Ht |].
  split; [exact Hn |]. split; [exact Hd |].
  exact (proj2 (Hhalf Hn Hd)).
Defined.





(** Every later component weighs one sixtieth of its value, whatever its
    position: 10 degrees 0 minutes 30 seconds fold to 10.5 as well. *)
Example seconds_weigh_like_minutes :
  newTag EXIF_BYTE_ORDER_MOTOROLA (rawValue (Sample.dms x0a x00 x1e)) =
  FloatTag {| float_basicTag := basicTag_zero; numerator := 37800; denominator := 3600 |}.
Proof. reflexivity. Qed.

(** Two rationals near [2^32] already wrap the 64-bit numerator. *)
Example fold_wraps :
  Spec.fold_step (4294967295, 4294967295)
    {| r_numerator := 4294967295; r_denominator := 4294967295 |} =
  (-523986010051, -515396075460).
Proof. reflexivity. Qed.

(** * Further properties of the walk *)

Lemma dom_fold_store (decode : exif_value_t -> Tag) (values : exif_stack_t)
    (Tags0 : gmap Z Tag) :
  dom (fold_left (fun m v => store_tag m (decode v)) values Tags0) =
  list_to_set (map (fun v => Tag_id (decode v)) values) ∪ dom Tags0.
Proof.
  revert Tags0. induction values as [| v rest IH]; intros Tags0; simpl.
  - rewrite (left_id_L ∅ (∪)). reflexivity.
  - rewrite IH. unfold store_tag. rewrite dom_insert_L.
    rewrite (assoc_L (∪)). f_equal. apply (comm_L (∪)).
Qed.

Lemma dom_parseExifData_loop (values : exif_stack_t) (byteOrder : ExifByteOrder)
    (Tags0 : gmap Z Tag) :
  dom (parseExifData_loop values byteOrder false Tags0) =
  list_to_set (Spec.walk_ids values) ∪ dom Tags0.
Proof.
  rewrite parseExifData_loop_walk_order, dom_fold_store. f_equal. f_equal.
  unfold Spec.walk_ids. apply map_ext. intros v. apply Tag_id_decodeValue.
Qed.

Lemma keyed_fold_store (decode : exif_value_t -> Tag) (values : exif_stack_t)
    (Tags0 : gmap Z Tag) :
  map_Forall (fun id t => Tag_id t = id) Tags0 ->
  map_Forall (fun id t => Tag_id t = id)
    (fold_left (fun m v => store_tag m (decode v)) values Tags0).
Proof.
  revert Tags0. induction values as [| v rest IH]; intros Tags0 Hkeyed; simpl;
    [exact Hkeyed |].
  apply IH. unfold store_tag. apply map_Forall_insert_2; [reflexivity | exact Hkeyed].
Qed.

(** The tag kept for an id is the decoding of the last value of the walk
    that has this id. *)
Theorem walk_keeps_last_value_of_each_id (before after : exif_stack_t) (v : exif_value_t)
    (byteOrder : ExifByteOrder) (Tags0 : gmap Z Tag) :
  Forall (fun w => int (C_int (entry_tag (rawValue w))) <>
                   int (C_int (entry_tag (rawValue v)))) after ->
  parseExifData_loop (before ++ v :: after)%list byteOrder false Tags0
    !! int (C_int (entry_tag (rawValue v))) =
  Some (decodeValue (walk_order (before ++ v :: after)%list) v).
Proof.
  intros Hafter. rewrite parseExifData_loop_walk_order.
  rewrite fold_left_app. cbn [fold_left].
  rewrite fold_store_other.
  - unfold store_tag. rewrite Tag_id_decodeValue. apply lookup_insert_eq.
  - eapply Forall_impl; [exact Hafter |].
    intros w Hw. simpl in Hw. rewrite Tag_id_decodeValue. exact Hw.
Qed.

Lemma walk_keeps_last_value_of_each_id_witness :
  Forall (fun w => int (C_int (entry_tag (rawValue w))) <> int (C_int 1))
    [Sample.short_entry 2 EXIF_BYTE_ORDER_INTEL x00 x01] /\
  parseExifData_loop
    ([Sample.short_entry 1 EXIF_BYTE_ORDER_MOTOROLA x00 x02] ++
     Sample.short_entry 1 EXIF_BYTE_ORDER_MOTOROLA x00 x01 ::
     [Sample.short_entry 2 EXIF_BYTE_ORDER_INTEL x00 x01])%list
    EXIF_BYTE_ORDER_MOTOROLA false ∅ !! int (C_int 1) =
  Some (decodeValue EXIF_BYTE_ORDER_MOTOROLA
          (Sample.short_entry 1 EXIF_BYTE_ORDER_MOTOROLA x00 x01)).
Proof.
  split.
  - repeat constructor. vm_compute. discriminate.
  - apply (walk_keeps_last_value_of_each_id
             [Sample.short_entry 1 EXIF_BYTE_ORDER_MOTOROLA x00 x02]
             [Sample.short_entry 2 EXIF_BYTE_ORDER_INTEL x00 x01]
             (Sample.short_entry 1 EXIF_BYTE_ORDER_MOTOROLA x00 x01)).
    repeat constructor. vm_compute. discriminate.
Defined.

Section WalkResults.
Context `{LibExif}.

(** [Read] of a file with EXIF data returns a [Data] without loader whose
    map holds a tag for exactly the ids of the file's walk; when these ids
    are pairwise different the map has one tag per value. *)
Theorem Read_stores_the_ids_of_the_walk (file : string) (exifData : ExifData) :
  exif_data_new_from_file file = Some exifData ->
  exists d,
    Read file = (Some d, None) /\
    exifLoader d = None /\
    dom (Tags d) = list_to_set (Spec.walk_ids (exif_dump exifData)) /\
    (NoDup (Spec.walk_ids (exif_dump exifData)) ->
     size (Tags d) = length (exif_dump exifData)).
Proof.
  intros Hfile. unfold Read, Open. rewrite Hfile. simpl.
  eexists. split; [reflexivity |]. split; [reflexivity |].
  cbn [Tags].
  assert (Hdom : dom (parseExifData_loop (exif_dump exifData)
                         EXIF_BYTE_ORDER_MOTOROLA false ∅) =
                 list_to_set (Spec.walk_ids (exif_dump exifData))).
  { rewrite dom_parseExifData_loop, dom_empty_L. apply (right_id_L ∅ (∪)). }
  split; [exact Hdom |].
  intros Hnodup. rewrite <- size_dom, Hdom, size_list_to_set by exact Hnodup.
  unfold Spec.walk_ids. apply length_map.
Qed.

Lemma Tags_Parse_cases (d : Data) :
  Tags (snd (Parse d)) = Tags d \/
  exists found, Tags (snd (Parse d)) = Tags (snd (parseExifData d found)).
Proof.
  unfold Parse. destruct (exifLoader d) as [l |] eqn:Hl.
  - destruct (exif_loader_get_data l) as [found |].
    + right. exists found. simpl. unfold cleanup. simpl. rewrite Hl. reflexivity.
    + left. simpl. apply Tags_cleanup.
  - left. simpl. apply Tags_cleanup.
Qed.

(** Every public operation keeps the map keyed by the tags' own ids. *)
Theorem operations_keep_tags_keyed_by_id (d : Data) (file : string) (p : list byte) :
  map_Forall (fun id t => Tag_id t = id) (Tags d) ->
  map_Forall (fun id t => Tag_id t = id) (Tags (snd (Open d file))) /\
  map_Forall (fun id t => Tag_id t = id) (Tags (snd (Parse d))) /\
  map_Forall (fun id t => Tag_id t = id) (Tags (snd (Write d p))).
Proof.
  intros Hkeyed.
  assert (Hwalk : forall found,
             map_Forall (fun id t => Tag_id t = id) (Tags (snd (parseExifData d found)))).
  { intros found. rewrite Tags_parseExifData. apply keyed_fold_store. exact Hkeyed. }
  split; [| split].
  - unfold Open. destruct (exif_data_new_from_file file) as [found |];
      [apply Hwalk | exact Hkeyed].
  - destruct (Tags_Parse_cases d) as [Hparse | [found Hparse]];
      rewrite Hparse; [exact Hkeyed | apply Hwalk].
  - rewrite Tags_Write. exact Hkeyed.
Qed.

End WalkResults.

Lemma Read_stores_the_ids_of_the_walk_witness :
  exif_data_new_from_file "gps.jpg" = Some Sample.gps_walk /\
  exists d,
    Read "gps.jpg" = (Some d, None) /\
    exifLoader d = None /\
    dom (Tags d) = list_to_set (Spec.walk_ids Sample.gps_walk) /\
    (NoDup (Spec.walk_ids Sample.gps_walk) -> size (Tags d) = length Sample.gps_walk).
Proof.
  split; [reflexivity |].
  apply (@Read_stores_the_ids_of_the_walk Sample.lib "gps.jpg" Sample.gps_walk).
  reflexivity.
Defined.

Lemma operations_keep_tags_keyed_by_id_witness :
  map_Forall (fun id t => Tag_id t = id) (Tags (@New Sample.lib)) /\
  map_Forall (fun id t => Tag_id t = id) (Tags (snd (Open New "orientation.jpg"))).
Proof.
  split; [apply map_Forall_empty |].
  apply (proj1 (@operations_keep_tags_keyed_by_id Sample.lib New "orientation.jpg" []
                  (map_Forall_empty _))).
Defined.

(** * Further properties of the loader *)

Section LoaderProtocol.
Context `{LibExif}.

Lemma Write_loader (d : Data) (p : list byte) :
  writable d = true -> p <> [] -> len p < 2 ^ 32 ->
  exifLoader (snd (Write d p)) =
  Some (fst (exif_loader_write (default exif_loader_new (exifLoader d)) p)).
Proof.
  intros Hw Hp Hlen. destruct p as [| b p']; [congruence |].
  rewrite (Write_writable d (b :: p') Hw). unfold write_chunk.
  rewrite firstn_C_uint_len by exact Hlen.
  destruct (exif_loader_write _ _) as [loader' res]. simpl.
  destruct (res =? 1); reflexivity.
Qed.

Lemma exifLoader_Parse (d : Data) : exifLoader (snd (Parse d)) = None.
Proof.
  unfold Parse, cleanup. destruct (exifLoader d) as [l |] eqn:Hl.
  - destruct (exif_loader_get_data l); simpl; rewrite ?Hl; reflexivity.
  - simpl. rewrite Hl. reflexivity.
Qed.

(** [Parse] is one-shot: it always leaves the [Data] without loader, and a
    second [Parse] reports that there is no data and changes nothing. *)
Theorem Parse_releases_the_loader (d : Data) :
  exifLoader (snd (Parse d)) = None /\
  Parse (snd (Parse d)) =
    (Some (fmt_error "No EXIF data found.%!(EXTRA string=)"), snd (Parse d)).
Proof.
  pose proof (exifLoader_Parse d) as Hnone.
  split; [exact Hnone |].
  destruct (snd (Parse d)) as [loader fin tags]. simpl in Hnone. subst loader.
  reflexivity.
Qed.

(** On a [Data] that can be written to, chunks written one after the other
    reach the same libexif loader, in the order of the calls; only the first
    call creates it. *)
Theorem Write_threads_the_loader (d : Data) (p1 p2 : list byte) :
  writable d = true ->
  p1 <> [] -> p2 <> [] -> len p1 < 2 ^ 32 -> len p2 < 2 ^ 32 ->
  exifLoader (snd (Write (snd (Write d p1)) p2)) =
  Some (fst (exif_loader_write
               (fst (exif_loader_write (default exif_loader_new (exifLoader d)) p1))
               p2)).
Proof.
  intros Hw Hp1 Hp2 Hlen1 Hlen2.
  pose proof (Write_loader d p1 Hw Hp1 Hlen1) as Hfirst.
  rewrite (Write_loader (snd (Write d p1)) p2); [| | exact Hp2 | exact Hlen2].
  - rewrite Hfirst. reflexivity.
  - unfold writable. rewrite Hfirst. reflexivity.
Qed.

(** The streaming path: on a [Data] that can be written to, when libexif
    finds EXIF data in what the loader holds after a [Write], the [Parse]
    that follows returns no error, stores the tags of that data on top of
    the tags the [Data] had, and releases the loader; the finalizer stays
    registered. *)
Theorem Write_then_Parse_decodes (d : Data) (p : list byte) (exifData : ExifData) :
  writable d = true ->
  p <> [] -> len p < 2 ^ 32 ->
  exif_loader_get_data
    (fst (exif_loader_write (default exif_loader_new (exifLoader d)) p)) = Some exifData ->
  Parse (snd (Write d p)) =
  (None, {| exifLoader := None;
            finalizer := match exifLoader d with None => true | Some _ => finalizer d end;
            Tags := fold_left
                      (fun m v => store_tag m (decodeValue (walk_order (exif_dump exifData)) v))
                      (exif_dump exifData) (Tags d) |}).
Proof.
  intros Hw Hp Hlen Hdata. destruct p as [| b p']; [congruence |].
  rewrite (Write_result_follows_libexif_aux d b p' Hw).
  rewrite firstn_C_uint_len by exact Hlen. cbn [snd].
  unfold Parse. cbn [exifLoader]. rewrite Hdata.
  unfold parseExifData, cleanup. cbn [exifLoader Tags finalizer].
  rewrite parseExifData_loop_walk_order. reflexivity.
Qed.

End LoaderProtocol.

Lemma Write_threads_the_loader_witness :
  writable (@New Sample.lib) = true /\
  [x4d; x4d] <> [] /\ [x2a; x00] <> [] /\
  len [x4d; x4d] < 2 ^ 32 /\ len [x2a; x00] < 2 ^ 32 /\
  exifLoader (snd (Write (snd (Write (@New Sample.lib) [x4d; x4d])) [x2a; x00])) =
  Some (fst (exif_loader_write
               (fst (exif_loader_write (default exif_loader_new None) [x4d; x4d]))
               [x2a; x00])).
Proof.
  split; [reflexivity |].
  split; [discriminate |]. split; [discriminate |].
  split; [reflexivity |]. split; [reflexivity |].
  apply (@Write_threads_the_loader Sample.lib New [x4d; x4d] [x2a; x00]);
    [reflexivity | discriminate | discriminate | reflexivity | reflexivity].
Defined.

Lemma Write_then_Parse_decodes_witness :
  writable (@New Sample.lib) = true /\
  [x4d; x4d; x2a; x00] <> [] /\ len [x4d; x4d; x2a; x00] < 2 ^ 32 /\
  exif_loader_get_data
    (fst (exif_loader_write (default exif_loader_new (exifLoader (@New Sample.lib)))
            [x4d; x4d; x2a; x00])) = Some Sample.orientation_walk /\
  Parse (snd (Write (@New Sample.lib) [x4d; x4d; x2a; x00])) =
  (None, {| exifLoader := None;
            finalizer := true;
            Tags := fold_left
                      (fun m v => store_tag m
                                    (decodeValue (walk_order Sample.orientation_walk) v))
                      Sample.orientation_walk ∅ |}).
Proof.
  split; [reflexivity |].
  split; [discriminate |]. split; [reflexivity |]. split; [reflexivity |].
  apply (@Write_then_Parse_decodes Sample.lib New [x4d; x4d; x2a; x00]
           Sample.orientation_walk);
    [reflexivity | discriminate | reflexivity | reflexivity].
Defined.

(** * Further properties of the decoder *)

Lemma C_int_range (z : Z) : -2 ^ 31 <= C_int z < 2 ^ 31.
Proof.
  unfold C_int, wrap. change (32 - 1) with 31.
  pose proof (Z.mod_pos_bound (z + 2 ^ 31) (2 ^ 32)). lia.
Qed.

(** The key under which a tag is stored is the entry's tag as a C [int]: it
    lies in the 32-bit signed range and is the raw tag whenever that one
    does. *)
Theorem tag_id_is_the_C_int_of_the_raw_tag (byteOrder : ExifByteOrder) (v : exif_value_t) :
  -2 ^ 31 <= Tag_id (decodeValue byteOrder v) < 2 ^ 31 /\
  (-2 ^ 31 <= entry_tag (rawValue v) < 2 ^ 31 ->
   Tag_id (decodeValue byteOrder v) = entry_tag (rawValue v)).
Proof.
  rewrite Tag_id_decodeValue.
  pose proof (C_int_range (entry_tag (rawValue v))) as Hrange.
  rewrite int_small by lia. split; [exact Hrange |].
  intros Hraw. apply C_int_small. exact Hraw.
Qed.

Lemma payload_value_range (c : Spec.FormatCode) (order : ExifByteOrder) (data : list byte) :
  0 <= Spec.payload_value c order data < 2 ^ 32 /\
  (c = Spec.Byte -> Spec.payload_value c order data < 256) /\
  (c = Spec.Short -> Spec.payload_value c order data < 65536).
Proof.
  pose proof (buf_at_range data 0). pose proof (buf_at_range data 1).
  pose proof (buf_at_range data 2). pose proof (buf_at_range data 3).
  destruct c, order; unfold Spec.payload_value, Spec.short_value, Spec.long_value;
    (split; [lia | split; intros Hc; try discriminate Hc; lia]).
Qed.

(** The integer of a decoded integer tag is never negative and fits 32
    bits; it is below 256 for a Byte entry and below 65536 for a Short
    one. *)
Theorem integer_values_are_bounded (byteOrder : ExifByteOrder) (raw : ExifEntry)
    (t : integerTag) :
  newTag byteOrder raw = IntegerTag t ->
  0 <= IntValue t < 2 ^ 32 /\
  (C_int (entry_format raw) = exifFormatByte -> IntValue t < 256) /\
  (C_int (entry_format raw) = exifFormatShort -> IntValue t < 65536).
Proof.
  intros Hnew.
  assert (Hvar : Spec.variant_for (Spec.format_code (C_int (entry_format raw))) = VInteger).
  { rewrite <- variant_of_newTag with (byteOrder := byteOrder). rewrite Hnew. reflexivity. }
  rewrite (newTag_integer byteOrder raw Hvar) in Hnew.
  injection Hnew as <-. unfold IntValue. cbn [intValue].
  destruct (payload_value_range (Spec.format_code (C_int (entry_format raw)))
              byteOrder (entry_data raw)) as [Hall [Hbyte Hshort]].
  split; [exact Hall |]. split; intros Hfmt.
  - apply Hbyte. rewrite Hfmt. reflexivity.
  - apply Hshort. rewrite Hfmt. reflexivity.
Qed.

Lemma integer_values_are_bounded_witness :
  newTag EXIF_BYTE_ORDER_INTEL
    (rawValue (Sample.short_entry 274 EXIF_BYTE_ORDER_INTEL xff xff)) =
  IntegerTag {| integer_basicTag := basicTag_zero; intValue := 65535 |} /\
  0 <= 65535 < 2 ^ 32.
Proof.
  split; [reflexivity |].
  exact (proj1 (integer_values_are_bounded EXIF_BYTE_ORDER_INTEL
                  (rawValue (Sample.short_entry 274 EXIF_BYTE_ORDER_INTEL xff xff))
                  {| integer_basicTag := basicTag_zero; intValue := 65535 |} eq_refl)).
Defined.

(** The setters change the field they name and nothing else: the other two
    texts or the id, and the numbers of the tag, stay as they were. *)
Theorem setters_change_one_field (t : Tag) (id : Z) (s : string) :
  (Tag_id (setTag id t) = id /\
   TextLabel (setTag id t) = TextLabel t /\
   TextValue (setTag id t) = TextValue t /\
   Spec.numeric_payload (setTag id t) = Spec.numeric_payload t) /\
  (Tag_id (setTextLabel s t) = Tag_id t /\
   TextLabel (setTextLabel s t) = s /\
   TextValue (setTextLabel s t) = TextValue t /\
   Spec.numeric_payload (setTextLabel s t) = Spec.numeric_payload t) /\
  (Tag_id (setTextValue s t) = Tag_id t /\
   TextLabel (setTextValue s t) = TextLabel t /\
   TextValue (setTextValue s t) = s /\
   Spec.numeric_payload (setTextValue s t) = Spec.numeric_payload t).
Proof. destruct t; repeat split; reflexivity. Qed.

(** The numbers of a decoded tag are those of [newTag]: the setters that
    follow do not touch them. *)
Lemma numeric_payload_decodeValue (byteOrder : ExifByteOrder) (v : exif_value_t) :
  Spec.numeric_payload (decodeValue byteOrder v) =
  Spec.numeric_payload (newTag byteOrder (rawValue v)).
Proof. unfold decodeValue. destruct (newTag byteOrder (rawValue v)); reflexivity. Qed.

(** ** Trimming keeps the text *)

(** Decoding removes spaces at the two ends of the label and of the value
    and nothing else: each raw text is the stored text between two runs of
    spaces. *)
Theorem decoded_text_differs_by_surrounding_spaces (byteOrder : ExifByteOrder)
    (v : exif_value_t) :
  (exists i j,
      ev_name v = String.append
                    (String.append (Spec.repeat_byte i space)
                                   (TextLabel (decodeValue byteOrder v)))
                    (Spec.repeat_byte j space)) /\
  (exists i j,
      ev_value v = String.append
                     (String.append (Spec.repeat_byte i space)
                                    (TextValue (decodeValue byteOrder v)))
                     (Spec.repeat_byte j space)).
Proof.
  unfold TextLabel, TextValue. rewrite basic_of_decodeValue. simpl.
  split; apply Trim_removes_only_surrounding_spaces.
Qed.

(** A text that neither begins nor ends with a space is stored as it is. *)
Theorem untrimmed_text_is_stored_unchanged (byteOrder : ExifByteOrder) (v : exif_value_t) :
  Spec.first_byte (ev_name v) <> Some space ->
  Spec.last_byte (ev_name v) <> Some space ->
  Spec.first_byte (ev_value v) <> Some space ->
  Spec.last_byte (ev_value v) <> Some space ->
  TextLabel (decodeValue byteOrder v) = ev_name v /\
  TextValue (decodeValue byteOrder v) = ev_value v.
Proof.
  intros Hn1 Hn2 Hv1 Hv2. unfold TextLabel, TextValue.
  rewrite basic_of_decodeValue. simpl.
  split; apply Trim_space_fixed; assumption.
Qed.

Lemma untrimmed_text_is_stored_unchanged_witness :
  TextLabel (decodeValue EXIF_BYTE_ORDER_MOTOROLA (Sample.dms x0a x1e x00)) = "Latitude" /\
  TextValue (decodeValue EXIF_BYTE_ORDER_MOTOROLA (Sample.dms x0a x1e x00)) = "10, 30, 0".
Proof.
  apply (untrimmed_text_is_stored_unchanged EXIF_BYTE_ORDER_MOTOROLA
           (Sample.dms x0a x1e x00)); vm_compute; discriminate.
Defined.

(** ** The three-component fold in closed form *)

Lemma newTag_fold_full (byteOrder : ExifByteOrder) (raw : ExifEntry) :
  entry_format raw = exifFormatFloat ->
  1 < entry_components raw <= 2 ^ 31 ->
  exists t,
    newTag byteOrder raw = FloatTag t /\
    float_basicTag t = basicTag_zero /\
    (numerator t, denominator t) =
      fold_left Spec.fold_step
        (Spec.later_components (entry_data raw) byteOrder (entry_components raw))
        (Spec.first_component (entry_data raw) byteOrder).
Proof.
  intros Hfmt Hn. rewrite (newTag_float byteOrder raw Hfmt).
  rewrite (int_small (entry_components raw)) by lia.
  destruct (Z.ltb_spec 1 (entry_components raw)) as [_ | Hle]; [| lia].
  eexists. split; [reflexivity |].
  split; [apply fold_components_basic |].
  change 1 with (Z.of_nat 1) at 1.
  rewrite fold_components_spec by lia.
  cbn [numerator denominator].
  unfold Spec.later_components, Spec.first_component, exif_get_rational.
  cbn [r_numerator r_denominator]. rewrite !int_exif_get_long. reflexivity.
Qed.

(** Two rational entries that agree on the first component and hold the
    same later components in any order decode to the same tag. *)
Theorem later_components_order_is_irrelevant (byteOrder : ExifByteOrder)
    (raw1 raw2 : ExifEntry) :
  entry_format raw1 = exifFormatFloat ->
  entry_format raw2 = exifFormatFloat ->
  entry_components raw1 = entry_components raw2 ->
  1 < entry_components raw1 <= 2 ^ 31 ->
  Spec.first_component (entry_data raw1) byteOrder =
    Spec.first_component (entry_data raw2) byteOrder ->
  Permutation
    (Spec.later_components (entry_data raw1) byteOrder (entry_components raw1))
    (Spec.later_components (entry_data raw2) byteOrder (entry_components raw2)) ->
  newTag byteOrder raw1 = newTag byteOrder raw2.
Proof.
  intros Hf1 Hf2 Hn Hbound Hfirst Hperm.
  destruct (newTag_fold_full byteOrder raw1 Hf1 Hbound) as [t1 [-> [Hb1 Hfold1]]].
  destruct (newTag_fold_full byteOrder raw2 Hf2) as [t2 [-> [Hb2 Hfold2]]];
    [rewrite <- Hn; exact Hbound |].
  rewrite (fold_step_permutation _ _ Hperm), Hfirst, <- Hfold2 in Hfold1.
  destruct t1, t2. simpl in *. congruence.
Qed.

Lemma later_components_order_is_irrelevant_witness :
  newTag EXIF_BYTE_ORDER_MOTOROLA (rawValue (Sample.dms x02 x03 x05)) =
  newTag EXIF_BYTE_ORDER_MOTOROLA (rawValue (Sample.dms x02 x05 x03)).
Proof.
  apply (later_components_order_is_irrelevant EXIF_BYTE_ORDER_MOTOROLA
           (rawValue (Sample.dms x02 x03 x05)) (rawValue (Sample.dms x02 x05 x03)));
    try reflexivity.
  - simpl. lia.
  - vm_compute. apply perm_swap.
Defined.

(** Degrees, minutes and seconds whose six longs are below [2^17] fold
    without wrapping, to the fraction
    [n0/d0 + n1/(60*d1) + n2/(60*d2)]: the third component weighs one
    sixtieth, like the second. *)
Theorem three_component_fold_closed_form (byteOrder : ExifByteOrder) (raw : ExifEntry)
    (n0 d0 n1 d1 n2 d2 : Z) :
  entry_format raw = exifFormatFloat ->
  entry_components raw = 3 ->
  exif_get_rational (entry_data raw) byteOrder =
    {| r_numerator := n0; r_denominator := d0 |} ->
  exif_get_rational_offset (entry_data raw) byteOrder 1 =
    {| r_numerator := n1; r_denominator := d1 |} ->
  exif_get_rational_offset (entry_data raw) byteOrder 2 =
    {| r_numerator := n2; r_denominator := d2 |} ->
  n0 < 2 ^ 17 -> d0 < 2 ^ 17 -> n1 < 2 ^ 17 -> d1 < 2 ^ 17 -> n2 < 2 ^ 17 -> d2 < 2 ^ 17 ->
  newTag byteOrder raw =
  FloatTag {| float_basicTag := basicTag_zero;
              numerator := 3600 * n0 * d1 * d2 + 60 * n1 * d0 * d2 + 60 * n2 * d0 * d1;
              denominator := 3600 * d0 * d1 * d2 |}.
Proof.
  intros Hfmt Hn H0 H1 H2 Bn0 Bd0 Bn1 Bd1 Bn2 Bd2.
  assert (Hpos : 0 <= n0 /\ 0 <= d0 /\ 0 <= n1 /\ 0 <= d1 /\ 0 <= n2 /\ 0 <= d2).
  { pose proof (exif_get_long_range (entry_data raw) byteOrder) as P0.
    pose proof (exif_get_long_range (skipn 4 (entry_data raw)) byteOrder) as P1.
    pose proof (exif_get_long_range (skipn (Z.to_nat (8 * 1)) (entry_data raw)) byteOrder)
      as P2.
    pose proof (exif_get_long_range
                  (skipn 4 (skipn (Z.to_nat (8 * 1)) (entry_data raw))) byteOrder) as P3.
    pose proof (exif_get_long_range (skipn (Z.to_nat (8 * 2)) (entry_data raw)) byteOrder)
      as P4.
    pose proof (exif_get_long_range
                  (skipn 4 (skipn (Z.to_nat (8 * 2)) (entry_data raw))) byteOrder) as P5.
    unfold exif_get_rational_offset, exif_get_rational in H0, H1, H2.
    injection H0 as E0 E1. injection H1 as E2 E3. injection H2 as E4 E5.
    rewrite E0 in P0. rewrite E1 in P1. rewrite E2 in P2.
    rewrite E3 in P3. rewrite E4 in P4. rewrite E5 in P5. lia. }
  destruct Hpos as [Pn0 [Pd0 [Pn1 [Pd1 [Pn2 Pd2]]]]].
  rewrite (newTag_float byteOrder raw Hfmt), Hn, H0.
  change (1 <? int 3) with true. change (Z.to_nat (int 3 - 1)) with 2%nat.
  cbn [fold_components r_numerator r_denominator numerator denominator float_basicTag].
  change (C_int 1) with 1. change (C_int (1 + 1)) with 2.
  rewrite H1, H2. cbn [r_numerator r_denominator].
  rewrite !int_fold_numerator, !int_fold_denominator.
  rewrite (int_small n0), (int_small d0) by lia.
  assert (B01 : 0 <= n0 * d1 <= (2 ^ 17 - 1) * (2 ^ 17 - 1))
    by (split; [apply Z.mul_nonneg_nonneg | apply Z.mul_le_mono_nonneg]; lia).
  assert (B10 : 0 <= n1 * d0 <= (2 ^ 17 - 1) * (2 ^ 17 - 1))
    by (split; [apply Z.mul_nonneg_nonneg | apply Z.mul_le_mono_nonneg]; lia).
  assert (Bdd : 0 <= d0 * d1 <= (2 ^ 17 - 1) * (2 ^ 17 - 1))
    by (split; [apply Z.mul_nonneg_nonneg | apply Z.mul_le_mono_nonneg]; lia).
  rewrite (int_small (60 * n0 * d1 + n1 * d0)) by lia.
  rewrite (int_small (d0 * d1 * 60)) by lia.
  assert (BA : 0 <= (60 * n0 * d1 + n1 * d0) * d2
               <= (61 * ((2 ^ 17 - 1) * (2 ^ 17 - 1))) * (2 ^ 17 - 1))
    by (split; [apply Z.mul_nonneg_nonneg | apply Z.mul_le_mono_nonneg]; lia).
  assert (BD : 0 <= n2 * (d0 * d1 * 60)
               <= (2 ^ 17 - 1) * (60 * ((2 ^ 17 - 1) * (2 ^ 17 - 1))))
    by (split; [apply Z.mul_nonneg_nonneg | apply Z.mul_le_mono_nonneg]; lia).
  assert (BE : 0 <= d0 * d1 * 60 * d2
               <= (60 * ((2 ^ 17 - 1) * (2 ^ 17 - 1))) * (2 ^ 17 - 1))
    by (split; [apply Z.mul_nonneg_nonneg | apply Z.mul_le_mono_nonneg]; lia).
  rewrite (int_small (60 * (60 * n0 * d1 + n1 * d0) * d2 + n2 * (d0 * d1 * 60))) by lia.
  rewrite (int_small (d0 * d1 * 60 * d2 * 60)) by lia.
  f_equal. f_equal; ring.
Qed.

Lemma three_component_fold_closed_form_witness :
  newTag EXIF_BYTE_ORDER_MOTOROLA (rawValue (Sample.dms x0a x1e x0f)) =
  FloatTag {| float_basicTag := basicTag_zero;
              numerator := 3600 * 10 * 1 * 1 + 60 * 30 * 1 * 1 + 60 * 15 * 1 * 1;
              denominator := 3600 * 1 * 1 * 1 |}.
Proof.
  apply (three_component_fold_closed_form EXIF_BYTE_ORDER_MOTOROLA
           (rawValue (Sample.dms x0a x1e x0f)) 10 1 30 1 15 1);
    try reflexivity.
Defined.

(** ** The two revisions *)

Lemma newTag_agrees (raw : ExifEntry) :
  C_int (entry_format raw) <> exifFormatByte ->
  C_int (entry_format raw) <> exifFormatFloat ->
  newTag (parent_order raw) raw = ExifGo.newTag raw.
Proof.
  unfold newTag, ExifGo.newTag. intros Hbyte Hfloat.
  destruct (Z.eqb_spec (C_int (entry_format raw)) exifFormatByte); [contradiction |].
  destruct (C_int (entry_format raw) =? exifFormatShort); [reflexivity |].
  destruct (C_int (entry_format raw) =? exifFormatLong); [reflexivity |].
  destruct (Z.eqb_spec (C_int (entry_format raw)) exifFormatFloat); [contradiction |].
  reflexivity.
Qed.

(** On a walk whose values all have the byte order of the first one and
    none of which is a Byte or a Rational entry, the revision that caches
    the byte order builds the same map as the revision that asks for it per
    entry. *)
Theorem revisions_agree_on_uniform_walks (values : exif_stack_t)
    (byteOrder : ExifByteOrder) (Tags0 : gmap Z Tag) :
  Forall (fun v => parent_order (rawValue v) = walk_order values /\
                   C_int (entry_format (rawValue v)) <> exifFormatByte /\
                   C_int (entry_format (rawValue v)) <> exifFormatFloat) values ->
  parseExifData_loop values byteOrder false Tags0 =
  ExifGo.parseExifData_loop values Tags0.
Proof.
  rewrite parseExifData_loop_walk_order, ExifGo_own_byte_order.
  generalize (walk_order values). intros order Hall. revert Tags0.
  induction Hall as [| v rest [Horder [Hbyte Hfloat]] _ IH]; intros Tags0;
    [reflexivity |].
  cbn [fold_left]. rewrite IH. do 2 f_equal.
  unfold decodeValue, ExifGo.decodeValue.
  rewrite <- Horder, newTag_agrees by assumption. reflexivity.
Qed.

Lemma revisions_agree_on_uniform_walks_witness :
  parseExifData_loop
    [Sample.short_entry 1 EXIF_BYTE_ORDER_INTEL x00 x01;
     Sample.short_entry 2 EXIF_BYTE_ORDER_INTEL x02 x00]
    EXIF_BYTE_ORDER_MOTOROLA false ∅ =
  ExifGo.parseExifData_loop
    [Sample.short_entry 1 EXIF_BYTE_ORDER_INTEL x00 x01;
     Sample.short_entry 2 EXIF_BYTE_ORDER_INTEL x02 x00] ∅.
Proof.
  apply (revisions_agree_on_uniform_walks
           [Sample.short_entry 1 EXIF_BYTE_ORDER_INTEL x00 x01;
            Sample.short_entry 2 EXIF_BYTE_ORDER_INTEL x02 x00]).
  repeat constructor; vm_compute; discriminate.
Defined.

Lemma ExifGo_Tag_id_decodeValue (v : exif_value_t) :
  Tag_id (ExifGo.decodeValue v) = int (C_int (entry_tag (rawValue v))).
Proof.
  unfold Tag_id, ExifGo.decodeValue, setTag, setTextLabel, setTextValue.
  rewrite !basic_of_with_basic. reflexivity.
Qed.

(** In the earlier revision a Short or Long value is decoded under its own
    byte order wherever it stands in the walk: the tag kept for its id, if no
    later value has that id, holds the standard interpretation of its
    payload under the order of its own parent. *)
Theorem ExifGo_value_decoded_under_own_order (before after : exif_stack_t)
    (v : exif_value_t) (Tags0 : gmap Z Tag) :
  C_int (entry_format (rawValue v)) = exifFormatShort \/
  C_int (entry_format (rawValue v)) = exifFormatLong ->
  Forall (fun w => int (C_int (entry_tag (rawValue w))) <>
                   int (C_int (entry_tag (rawValue v)))) after ->
  exists t,
    ExifGo.parseExifData_loop (before ++ v :: after)%list Tags0
      !! int (C_int (entry_tag (rawValue v))) = Some (IntegerTag t) /\
    IntValue t =
      Spec.payload_value (Spec.format_code (C_int (entry_format (rawValue v))))
        (parent_order (rawValue v)) (entry_data (rawValue v)).
Proof.
  intros Hfmt Hafter. rewrite ExifGo_own_byte_order.
  rewrite fold_left_app. cbn [fold_left].
  rewrite fold_store_other.
  2:{ eapply Forall_impl; [exact Hafter |].
      intros w Hw. simpl in Hw. rewrite ExifGo_Tag_id_decodeValue. exact Hw. }
  unfold store_tag. rewrite ExifGo_Tag_id_decodeValue, lookup_insert_eq.
  unfold ExifGo.decodeValue, ExifGo.newTag.
  destruct Hfmt as [Hfmt | Hfmt]; rewrite Hfmt; cbn -[int exif_get_short exif_get_long];
    eexists; (split; [reflexivity |]); unfold IntValue; cbn [intValue].
  - rewrite int_exif_get_short. apply exif_get_short_value.
  - rewrite int_exif_get_long. apply exif_get_long_value.
Qed.

Lemma ExifGo_value_decoded_under_own_order_witness :
  exists t,
    ExifGo.parseExifData_loop
      ([Sample.short_entry 1 EXIF_BYTE_ORDER_MOTOROLA x00 x01] ++
       Sample.short_entry 2 EXIF_BYTE_ORDER_INTEL x00 x01 :: [])%list ∅
      !! int (C_int 2) = Some (IntegerTag t) /\
    IntValue t = 256.
Proof.
  apply (ExifGo_value_decoded_under_own_order
           [Sample.short_entry 1 EXIF_BYTE_ORDER_MOTOROLA x00 x01] []
           (Sample.short_entry 2 EXIF_BYTE_ORDER_INTEL x00 x01) ∅).
  - left. reflexivity.
  - constructor.
Defined.

(** A Byte entry and an entry without numeric decoding give the same tag
    under either byte order. *)
Theorem byte_order_matters_for_multibyte_formats_only (order1 order2 : ExifByteOrder)
    (v : exif_value_t) :
  C_int (entry_format (rawValue v)) <> exifFormatShort ->
  C_int (entry_format (rawValue v)) <> exifFormatLong ->
  C_int (entry_format (rawValue v)) <> exifFormatFloat ->
  decodeValue order1 v = decodeValue order2 v.
Proof.
  intros Hshort Hlong Hfloat. unfold decodeValue, newTag.
  destruct (C_int (entry_format (rawValue v)) =? exifFormatByte); [reflexivity |].
  destruct (Z.eqb_spec (C_int (entry_format (rawValue v))) exifFormatShort);
    [contradiction |].
  destruct (Z.eqb_spec (C_int (entry_format (rawValue v))) exifFormatLong);
    [contradiction |].
  destruct (Z.eqb_spec (C_int (entry_format (rawValue v))) exifFormatFloat);
    [contradiction |].
  reflexivity.
Qed.

Lemma byte_order_matters_for_multibyte_formats_only_witness :
  decodeValue EXIF_BYTE_ORDER_MOTOROLA
    {| ev_name := "Flash"; ev_value := "on";
       rawValue := {| entry_tag := 7; entry_format := exifFormatByte;
                      entry_components := 1; entry_data := [x09];
                      parent_order := EXIF_BYTE_ORDER_INTEL |} |} =
  decodeValue EXIF_BYTE_ORDER_INTEL
    {| ev_name := "Flash"; ev_value := "on";
       rawValue := {| entry_tag := 7; entry_format := exifFormatByte;
                      entry_components := 1; entry_data := [x09];
                      parent_order := EXIF_BYTE_ORDER_INTEL |} |}.
Proof.
  apply (byte_order_matters_for_multibyte_formats_only
           EXIF_BYTE_ORDER_MOTOROLA EXIF_BYTE_ORDER_INTEL);
    vm_compute; discriminate.
Defined.

Section OpenAndParse.
Context `{LibExif}.

(** [Open] never touches the loader, succeeds exactly when libexif finds
    EXIF data in the file, and otherwise returns [ErrNoExifData] and the
    [Data] as it was; [Read] then returns no [Data]. *)
Theorem Open_keeps_the_loader (d : Data) (file : string) :
  exifLoader (snd (Open d file)) = exifLoader d /\
  (fst (Open d file) = None <-> is_Some (exif_data_new_from_file file)) /\
  (exif_data_new_from_file file = None ->
   Open d file = (Some ErrNoExifData, d) /\ Read file = (None, Some ErrNoExifData)).
Proof.
  unfold Read, Open. destruct (exif_data_new_from_file file) as [found |]; simpl.
  - split; [reflexivity |]. split; [| discriminate].
    split; [eauto | reflexivity].
  - split; [reflexivity |]. split; [| intros _; split; reflexivity].
    split; [discriminate | intros [x Hx]; discriminate Hx].
Qed.

End OpenAndParse.

Lemma Parse_no_data_witness :
  match exifLoader (snd (Write (@New Sample.lib) [x00])) with
  | None => True
  | Some l => exif_loader_get_data l = None
  end /\
  Parse (snd (Write (@New Sample.lib) [x00])) =
  (Some (fmt_error "No EXIF data found.%!(EXTRA string=)"),
   {| exifLoader := None; finalizer := true; Tags := ∅ |}).
Proof.
  split; [reflexivity |].
  apply (@Parse_no_data Sample.lib (snd (Write New [x00]))). reflexivity.
Defined.
